(** * ViewBatchChangesCommand: batch-change and changeset views

    A shallow embedding of [src/components/ViewBatchChangesCommand.tsx]:
    the two item components ([BatchChange], [ChangesetItem]), the list
    view [ViewBatchChanges], the action handlers attached to the items and
    the two fetch hooks ([useBatchChanges], [useChangesets]) together with
    the event loop that drives them.

    Conventions.
    - A JavaScript value that may be [null]/[undefined] is an [option].
    - GraphQL integers are [Z]; array lengths are [nat].
    - Lifecycle and review states are the strings the code switches on, so
      every runtime value is covered, including those no [case] names.
    - React keys ([nanoid()]) identify list children only and are left out.
    - [AbortController] objects live in a heap indexed by allocation order. *)

From stdpp Require Import base list strings pretty.
From Stdlib Require Import ZArith Ascii String Lia.

Open Scope string_scope.

(** ** JavaScript primitives used by the component *)

Module Js.

(** Truthiness of a possibly-absent string: [null], [undefined] and the
    empty string are falsy. *)
Definition truthy (s : option string) : bool :=
  match s with
  | Some (String _ _) => true
  | _ => false
  end.

(** [a || b] where [a] is a possibly-absent string and [b] a string. *)
Definition or_else (a : option string) (b : string) : string :=
  match a with
  | Some (String c s) => String c s
  | _ => b
  end.

(** Truthiness of an integer: only [0] is falsy. *)
Definition truthyZ (n : Z) : bool := negb (n =? 0)%Z.

Definition lower_ascii (c : ascii) : ascii :=
  let n := nat_of_ascii c in
  if (65 <=? n)%nat && (n <=? 90)%nat then ascii_of_nat (n + 32) else c.

(** [String.prototype.toLowerCase] on the ASCII range (the states and
    review states of the API are upper-case ASCII identifiers; the
    locale-aware variant agrees with it there for the usual locales). *)
Fixpoint toLowerCase (s : string) : string :=
  match s with
  | EmptyString => EmptyString
  | String c r => String (lower_ascii c) (toLowerCase r)
  end.

(** A thrown value.  [String(error)] follows [Error.prototype.toString]. *)
Record Error := { name : string; message : string }.

Definition String_ (e : Error) : string :=
  match name e, message e with
  | EmptyString, m => m
  | n, EmptyString => n
  | n, m => n ++ ": " ++ m
  end.

(** What [fetch] rejects with when its signal is aborted. *)
Definition AbortError : Error :=
  {| name := "AbortError"; message := "The user aborted a request." |}.

Definition isAbort (e : Error) : bool := bool_decide (name e = "AbortError").

(** Completion of an expression: a value, or a thrown error. *)
Inductive Completion (A : Type) : Type :=
| Returns (a : A)
| Throws (e : Error).
Arguments Returns {A} a.
Arguments Throws {A} e.

(** Code that writes to the console and may throw. *)
Definition M (A : Type) : Type := list string -> Completion A * list string.

Definition ret {A} (a : A) : M A := fun out => (Returns a, out).

Definition bind {A B} (m : M A) (k : A -> M B) : M B :=
  fun out =>
    match m out with
    | (Returns a, out') => k a out'
    | (Throws e, out') => (Throws e, out')
    end.

Definition lift {A} (c : Completion A) : M A := fun out => (c, out).

(** [try { body } catch (e) { handler e }] *)
Definition try_catch {A} (body : M A) (handler : Error -> M A) : M A :=
  fun out =>
    match body out with
    | (Returns a, out') => (Returns a, out')
    | (Throws e, out') => handler e out'
    end.

Definition console_warn (line : string) : M unit :=
  fun out => (Returns tt, (out ++ [line])%list).

End Js.

#[global] Instance M_ret : MRet Js.M := @Js.ret.
#[global] Instance M_bind : MBind Js.M := fun A B k m => Js.bind m k.

(** ** Data model (the types imported from [../sourcegraph]) *)

Record Sourcegraph := { instance : string }.

Module gql.

Record Namespace := { ns_id : string; namespaceName : string }.
Record Creator := { displayName : option string; username : string }.
Record ChangesetsStats :=
  { total : Z; open : Z; closed : Z; merged : Z; failed : Z }.

Record BatchChange := {
  bc_id : string;
  bc_name : string;
  namespace : Namespace;
  bc_state : string;
  creator : Creator;
  bc_updatedAt : string;
  changesetsStats : ChangesetsStats;
  bc_url : string;
}.

Record ExternalURL := { url : string }.
Record Repository := { repo_name : string }.

Record Changeset := {
  cs_id : string;
  cs_state : string;
  reviewState : option string;
  externalID : option string;
  externalURL : option ExternalURL;
  cs_updatedAt : string;
  repository : Repository;
}.

End gql.

(** The date library.  [DateTime.fromISO(s).toRelative()] either throws or
    returns a relative time, [null] for an invalid date. *)
Class DateTime := { fromISO_toRelative : string -> Js.Completion (option string) }.

(** ** The host UI tree *)

Inductive Icon :=
| Icon_Circle | Icon_Checkmark | Icon_Document | Icon_List
| Icon_MagnifyingGlass | Icon_ArrowClockwise | Icon_XmarkCircle
| Icon_ExclamationMark | Icon_Hammer | Icon_Clock.

Inductive Color := Color_Green | Color_Red | Color_Purple | ColorDefault.

Record Image := { source : Icon; tintColor : option Color }.

Inductive Shortcut := copyShortcut | refreshShortcut | secondaryActionShortcut.

Inductive ToastStyle := Style_Success | Style_Failure.

(** Which hook a [load] closure handed down as a refresh prop belongs to. *)
Inductive Hook := useBatchChanges | useChangesets.

(** The bodies of the [onAction] closures of the file, one constructor per
    closure shape. *)
Inductive Handler :=
| AwaitRefresh (refresh : Hook)
    (* async () => { await refresh(); } *)
| PublishThenRefresh (src : Sourcegraph) (batchChangeId changesetId : string)
                     (toastTitle : string) (refreshChangesets : Hook).
    (* async () => {
         await publishChangeset(new AbortController().signal, src,
                                batchChangeId, changesetId);
         showToast({ style: Toast.Style.Success, title: toastTitle });
         await delayedRefreshChangesets();
       } *)

Inductive Action :=
| Action_Push (title : string) (icon : Image) (target : gql.BatchChange)
| Action_OpenInBrowser (title : option string) (url : string)
                       (shortcut : option Shortcut)
| Action_CopyToClipboard (title : option string) (content : string)
                         (shortcut : option Shortcut)
| Action_ (title : string) (icon : Icon) (onAction : Handler)
          (shortcut : option Shortcut).

Record ListItem := {
  icon : option Image;
  title : string;
  subtitle : string;
  accessoryTitle : option string;
  accessoryIcon : Image;
  keywords : list string;
  actions : list Action;
}.

(** Child elements as the parent returns them: the component and its
    props; React renders them afterwards. *)
Inductive Element :=
| El_BatchChange (batchChange : gql.BatchChange) (src : Sourcegraph)
                 (refreshBatchChanges : Hook)
| El_ChangesetItem (src : Sourcegraph) (batchChange : gql.BatchChange)
                   (changeset : gql.Changeset) (refreshChangesets : Hook).

Record ListSection := {
  sec_title : string;
  sec_subtitle : string;
  children : list Element;
}.

Record ListView := {
  view_isLoading : bool;
  searchBarPlaceholder : string;
  sections : list ListSection;
}.

(** ** Hook state *)

(** [BatchChangesState] and [ChangesetsState] differ in the name of the
    collection field only. *)
Record FetchState (T : Type) := {
  searchText : string;
  items : list T;
  isLoading : bool;
}.
Arguments searchText {T} _.
Arguments items {T} _.
Arguments isLoading {T} _.

Definition BatchChangesState := FetchState gql.BatchChange.
Definition ChangesetsState := FetchState gql.Changeset.

(** ** Components *)

Section Components.
Context `{DateTime}.

(** The [try]/[catch] that opens both item components. *)
Definition relativeUpdate (what id updatedAt : string) : Js.M (option string) :=
  Js.try_catch
    (Js.lift (fromISO_toRelative updatedAt))
    (fun e =>
       _ ← Js.console_warn (what ++ " " ++ id ++ ": invalid date: " ++ Js.String_ e);
       mret None).

Definition BatchChange_icon (state : string) : Image :=
  if bool_decide (state = "OPEN") then
    {| source := Icon_Circle; tintColor := Some Color_Green |}
  else if bool_decide (state = "CLOSED") then
    {| source := Icon_Checkmark; tintColor := Some Color_Red |}
  else if bool_decide (state = "DRAFT") then
    {| source := Icon_Document; tintColor := None |}
  else
    {| source := Icon_Circle; tintColor := None |}.

(** Lines 47-109: what [BatchChange] returns once [updated] is known. *)
Definition BatchChange_item (batchChange : gql.BatchChange) (src : Sourcegraph)
    (refreshBatchChanges : Hook) (updated : option string) : ListItem :=
  let author :=
    Js.or_else (gql.displayName (gql.creator batchChange))
               (gql.username (gql.creator batchChange)) in
  let icon := BatchChange_icon (gql.bc_state batchChange) in
  let changesetsStats := gql.changesetsStats batchChange in
  let url := instance src ++ gql.bc_url batchChange in
  {| icon := Some {| source := Icon_List; tintColor := Some ColorDefault |};
     title := gql.namespaceName (gql.namespace batchChange) ++ " / "
              ++ gql.bc_name batchChange;
     subtitle :=
       if Js.truthy updated
       then "by " ++ author ++ ", updated " ++ default "" updated
       else author;
     accessoryTitle :=
       if Js.truthyZ (gql.total changesetsStats)
       then Some (pretty (gql.merged changesetsStats) ++ " / "
                  ++ pretty (gql.closed changesetsStats
                             + gql.merged changesetsStats
                             + gql.open changesetsStats)%Z
                  ++ " / " ++ pretty (gql.total changesetsStats))
       else None;
     accessoryIcon := icon;
     keywords := [gql.bc_state batchChange];
     actions :=
       [ Action_Push "View Batch Change"
           {| source := Icon_MagnifyingGlass; tintColor := None |} batchChange;
         Action_OpenInBrowser None url (Some secondaryActionShortcut);
         Action_ "Refresh Batch Changes" Icon_ArrowClockwise
           (AwaitRefresh refreshBatchChanges) (Some refreshShortcut);
         Action_CopyToClipboard (Some "Copy Batch Change URL") url
           (Some copyShortcut);
         Action_OpenInBrowser (Some "Open Batch Changes in Browser")
           (instance src ++ "/batch-changes") None ] |}.

Definition BatchChange (batchChange : gql.BatchChange) (src : Sourcegraph)
    (refreshBatchChanges : Hook) : Js.M ListItem :=
  updated ← relativeUpdate "batch change" (gql.bc_id batchChange)
                           (gql.bc_updatedAt batchChange);
  mret (BatchChange_item batchChange src refreshBatchChanges updated).

(** The [switch] of [ChangesetItem]: icon, secondary action and subtitle. *)
Definition ChangesetItem_switch (src : Sourcegraph) (batchChange : gql.BatchChange)
    (changeset : gql.Changeset) (refreshChangesets : Hook)
    : Image * list Action * string :=
  let state := gql.cs_state changeset in
  let subtitle := Js.toLowerCase state in
  let publish toastTitle :=
    PublishThenRefresh src (gql.bc_id batchChange) (gql.cs_id changeset)
                       toastTitle refreshChangesets in
  if bool_decide (state = "OPEN") then
    let subtitle := Js.or_else (Js.toLowerCase <$> gql.reviewState changeset) "" in
    let source :=
      match gql.reviewState changeset with
      | Some rs =>
          if bool_decide (rs = "APPROVED") then Icon_Checkmark
          else if bool_decide (rs = "CHANGES_REQUESTED") then Icon_XmarkCircle
          else Icon_Circle
      | None => Icon_Circle
      end in
    ({| source := source; tintColor := Some Color_Green |}, [], subtitle)
  else if bool_decide (state = "MERGED") then
    ({| source := Icon_Checkmark; tintColor := Some Color_Purple |}, [], subtitle)
  else if bool_decide (state = "CLOSED") then
    ({| source := Icon_XmarkCircle; tintColor := Some Color_Red |}, [], subtitle)
  else if bool_decide (state = "FAILED") then
    ({| source := Icon_ExclamationMark; tintColor := Some Color_Red |},
     [ Action_ "Retry Changeset" Icon_Hammer
         (publish "Changeset has been submitted for retry!") None ],
     subtitle)
  else if bool_decide (state = "UNPUBLISHED") then
    ({| source := Icon_Document; tintColor := None |},
     [ Action_ "Publish Changeset" Icon_Hammer
         (publish "Changeset has been submitted for publishing!") None ],
     subtitle)
  else if bool_decide (state = "PROCESSING") || bool_decide (state = "RETRYING") then
    ({| source := Icon_Clock; tintColor := None |}, [], subtitle)
  else
    ({| source := Icon_Circle; tintColor := None |}, [], subtitle).

(** Line 242. *)
Definition ChangesetItem_url (src : Sourcegraph) (batchChange : gql.BatchChange)
    (changeset : gql.Changeset) : string :=
  Js.or_else (gql.url <$> gql.externalURL changeset)
    (instance src ++ gql.bc_url batchChange ++ "?status=" ++ gql.cs_state changeset).

(** Lines 170-271: what [ChangesetItem] returns once [updated] is known. *)
Definition ChangesetItem_item (src : Sourcegraph) (batchChange : gql.BatchChange)
    (changeset : gql.Changeset) (refreshChangesets : Hook)
    (updated : option string) : ListItem :=
  let '(icon, secondaryAction, subtitle) :=
    ChangesetItem_switch src batchChange changeset refreshChangesets in
  let url := ChangesetItem_url src batchChange changeset in
  {| icon := None;
     title := gql.repo_name (gql.repository changeset);
     subtitle :=
       (if Js.truthy (gql.externalID changeset)
        then "#" ++ default "" (gql.externalID changeset) ++ " "
        else "") ++ subtitle;
     accessoryTitle := if Js.truthy updated then updated else None;
     accessoryIcon := icon;
     keywords := [gql.cs_state changeset; Js.or_else (gql.reviewState changeset) ""];
     actions :=
       [ Action_OpenInBrowser None url None ]
       ++ secondaryAction
       ++ [ Action_ "Refresh Changesets" Icon_ArrowClockwise
              (AwaitRefresh refreshChangesets) (Some refreshShortcut);
            Action_CopyToClipboard None url (Some copyShortcut);
            Action_OpenInBrowser (Some "Open Changesets in Browser")
              (instance src ++ gql.bc_url batchChange) None ] |}.

Definition ChangesetItem (src : Sourcegraph) (batchChange : gql.BatchChange)
    (changeset : gql.Changeset) (refreshChangesets : Hook) : Js.M ListItem :=
  updated ← relativeUpdate "changeset" (gql.cs_id changeset)
                           (gql.cs_updatedAt changeset);
  mret (ChangesetItem_item src batchChange changeset refreshChangesets updated).

(** React rendering a child element. *)
Definition render (e : Element) : Js.M ListItem :=
  match e with
  | El_BatchChange b src refresh => BatchChange b src refresh
  | El_ChangesetItem src b c refresh => ChangesetItem src b c refresh
  end.

End Components.

(** [instanceName] lives in [../sourcegraph]; the placeholder text is the
    only place it is used.  The views are functions of the hook state they
    read; the authentication effect of [ViewBatchChanges] does not take part
    in what is rendered. *)
Section Views.
Variable instanceName : Sourcegraph -> string.

Definition ViewBatchChanges (src : Sourcegraph) (state : BatchChangesState)
    : ListView :=
  let srcName := instanceName src in
  let count := List.length (items state) in
  {| view_isLoading := isLoading state;
     searchBarPlaceholder := "Browse batch changes on " ++ srcName;
     sections :=
       [ {| sec_title := "Batch changes";
            sec_subtitle :=
              (if (100 <? count)%nat then pretty count ++ "+" else pretty count)
              ++ " batch changes";
            children :=
              map (fun b => El_BatchChange b src useBatchChanges) (items state) |} ] |}.

End Views.

(** [xs.filter((s) => !!s).join(", ")] on possibly-absent strings. *)
Fixpoint join_comma (xs : list string) : string :=
  match xs with
  | [] => ""
  | [x] => x
  | x :: rest => x ++ ", " ++ join_comma rest
  end.

Definition stat_label (n : Z) (label : string) : option string :=
  if Js.truthyZ n then Some (pretty n ++ " " ++ label) else None.

Definition BatchChangePeek (batchChange : gql.BatchChange) (src : Sourcegraph)
    (state : ChangesetsState) : ListView :=
  let published :=
    filter (fun c => gql.cs_state c <> "UNPUBLISHED") (items state) in
  let unpublished :=
    filter (fun c => gql.cs_state c = "UNPUBLISHED") (items state) in
  let stats := gql.changesetsStats batchChange in
  let item c := El_ChangesetItem src batchChange c useChangesets in
  {| view_isLoading := isLoading state;
     searchBarPlaceholder := "Search changesets for " ++ gql.bc_name batchChange;
     sections :=
       [ {| sec_title := "Published changesets";
            sec_subtitle :=
              if (0 <? List.length published)%nat
              then join_comma
                     (omap id [ stat_label (gql.open stats) "open";
                                stat_label (gql.closed stats) "closed";
                                stat_label (gql.merged stats) "merged";
                                stat_label (gql.failed stats) "failed" ])
              else "0 changesets";
            children := map item published |};
         {| sec_title := "Unpublished changesets";
            sec_subtitle := pretty (List.length unpublished) ++ " changesets";
            children := map item unpublished |} ] |}.

(** ** The event loop: hooks, the Remote Data Port and action handlers *)

Record Detail := { markdown : string; navigationTitle : string }.

Record ToastAction := { ta_title : string; ta_push : Detail }.

Record Toast := {
  style : ToastStyle;
  toast_title : string;
  toast_message : option string;
  primaryAction : option ToastAction;
}.

(** How a port call settles.  [nodes] is the collection reached through the
    optional chain ([resp?.batchChanges?.nodes]), absent when a link is. *)
Inductive Outcome (T : Type) :=
| Resolved (nodes : option (list T))
| Rejected (error : Js.Error).
Arguments Resolved {T} nodes.
Arguments Rejected {T} error.

(** What the code does to the outside world, in order.  A signal is the
    heap address of its [AbortController]. *)
Inductive Effect :=
| Eff_getBatchChanges (signal : nat) (src : Sourcegraph)
| Eff_getChangesets (signal : nat) (src : Sourcegraph) (namespaceId name : string)
| Eff_publishChangeset (signal : nat) (src : Sourcegraph)
                       (batchChangeId changesetId : string)
| Eff_showToast (t : Toast)
| Eff_setTimeout (ms : Z)
| Eff_unhandledRejection (error : Js.Error).

(** One mounted hook: its React state, [cancelRef.current], and the [load]
    invocations suspended at their [await], each named by the controller it
    created. *)
Record Fetcher (T : Type) := {
  state : FetchState T;
  cancelRef : option nat;
  awaiting : list nat;
}.
Arguments state {T} _.
Arguments cancelRef {T} _.
Arguments awaiting {T} _.

Section Load.
Context {T : Type}.
(** The two [load] functions differ in the toast text and the port call. *)
Variable failed : string.
Variable request : nat -> Effect.

(** [cancelRef.current?.abort()] *)
Definition abort_current (controllers : list bool) (f : Fetcher T) : list bool :=
  match cancelRef f with
  | Some a => <[a := true]> controllers
  | None => controllers
  end.

(** [load()] from its first line to the [await]. *)
Definition load_call (controllers : list bool) (f : Fetcher T)
    : list bool * Fetcher T * list Effect :=
  let controllers := abort_current controllers f in
  let a := List.length controllers in
  ((controllers ++ [false])%list,
   {| state := {| searchText := searchText (state f);
                  items := [];
                  isLoading := true |};
      cancelRef := Some a;
      awaiting := a :: awaiting f |},
   [request a]).

Definition failureToast (error : Js.Error) : Toast :=
  {| style := Style_Failure;
     toast_title := failed;
     toast_message := Some (Js.String_ error);
     primaryAction :=
       Some {| ta_title := "View details";
               ta_push :=
                 {| markdown := "**" ++ failed ++ ":** " ++ Js.String_ error;
                    navigationTitle := "Unexpected error" |} |} |}.

(** [load()] from the [await] on: the rest of the [try], or the [catch]. *)
Definition load_resume (o : Outcome T) (f : Fetcher T) : Fetcher T * list Effect :=
  match o with
  | Resolved nodes =>
      ({| state := {| searchText := searchText (state f);
                      items := default [] nodes;
                      isLoading := false |};
          cancelRef := cancelRef f;
          awaiting := awaiting f |},
       [])
  | Rejected error =>
      ({| state := {| searchText := searchText (state f);
                      items := items (state f);
                      isLoading := false |};
          cancelRef := cancelRef f;
          awaiting := awaiting f |},
       [Eff_showToast (failureToast error)])
  end.

(** The promise of the invocation named [a] settles.  A promise settles at
    most once; an invocation that is not suspended is not resumed. *)
Definition settle (a : nat) (o : Outcome T) (f : Fetcher T)
    : Fetcher T * list Effect :=
  if bool_decide (a ∈ awaiting f) then
    load_resume o {| state := state f;
                     cancelRef := cancelRef f;
                     awaiting := filter (fun b => b <> a) (awaiting f) |}
  else (f, []).

End Load.

(** An action handler suspended at an [await]. *)
Inductive Continuation :=
| AfterPublish (toastTitle : string) (refreshChangesets : Hook)
| AfterTimeout (refreshChangesets : Hook)
| Finished.

Record World := {
  controllers : list bool;
  batchChangesHook : Fetcher gql.BatchChange;
  changesetsHook : Fetcher gql.Changeset;
  tasks : list Continuation;
  effects : list Effect;
}.

Inductive Event :=
| CallLoad (h : Hook)
| Settled_getBatchChanges (a : nat) (o : Outcome gql.BatchChange)
| Settled_getChangesets (a : nat) (o : Outcome gql.Changeset)
| Trigger (h : Handler)
| Settled_publishChangeset (task : nat) (error : option Js.Error)
| TimerFired (task : nat).

Definition mounted {T} : Fetcher T :=
  {| state := {| searchText := ""; items := []; isLoading := true |};
     cancelRef := None;
     awaiting := [] |}.

Definition init : World :=
  {| controllers := [];
     batchChangesHook := mounted;
     changesetsHook := mounted;
     tasks := [];
     effects := [] |}.

Section EventLoop.
(** The props of the mounted views: [ViewBatchChanges(src)] and
    [BatchChangePeek({ batchChange, src })]. *)
Variable src : Sourcegraph.
Variable batchChange : gql.BatchChange.

Definition useBatchChanges_load (w : World) : World :=
  let '(cs, f, es) :=
    load_call (fun a => Eff_getBatchChanges a src)
              (controllers w) (batchChangesHook w) in
  {| controllers := cs;
     batchChangesHook := f;
     changesetsHook := changesetsHook w;
     tasks := tasks w;
     effects := effects w ++ es |}.

Definition useChangesets_load (w : World) : World :=
  let '(cs, f, es) :=
    load_call (fun a => Eff_getChangesets a src
                          (gql.ns_id (gql.namespace batchChange))
                          (gql.bc_name batchChange))
              (controllers w) (changesetsHook w) in
  {| controllers := cs;
     batchChangesHook := batchChangesHook w;
     changesetsHook := f;
     tasks := tasks w;
     effects := effects w ++ es |}.

Definition load (h : Hook) : World -> World :=
  match h with
  | useBatchChanges => useBatchChanges_load
  | useChangesets => useChangesets_load
  end.

(** The fixed delay of [delayedRefreshChangesets], in milliseconds. *)
Definition refreshDelay : Z := 10000.

(** A handler runs from its first line to its first [await]. *)
Definition trigger (h : Handler) (w : World) : World :=
  match h with
  | AwaitRefresh refresh => load refresh w
  | PublishThenRefresh src' batchChangeId changesetId toastTitle refresh =>
      let a := List.length (controllers w) in
      {| controllers := controllers w ++ [false];
         batchChangesHook := batchChangesHook w;
         changesetsHook := changesetsHook w;
         tasks := tasks w ++ [AfterPublish toastTitle refresh];
         effects := effects w
                    ++ [Eff_publishChangeset a src' batchChangeId changesetId] |}
  end.

Definition set_task (t : nat) (k : Continuation) (es : list Effect) (w : World)
    : World :=
  {| controllers := controllers w;
     batchChangesHook := batchChangesHook w;
     changesetsHook := changesetsHook w;
     tasks := <[t := k]> (tasks w);
     effects := effects w ++ es |}.

Definition step (w : World) (ev : Event) : World :=
  match ev with
  | CallLoad h => load h w
  | Settled_getBatchChanges a o =>
      let '(f, es) := settle "Get batch changes failed" a o (batchChangesHook w) in
      {| controllers := controllers w;
         batchChangesHook := f;
         changesetsHook := changesetsHook w;
         tasks := tasks w;
         effects := effects w ++ es |}
  | Settled_getChangesets a o =>
      let '(f, es) := settle "Get changesets failed" a o (changesetsHook w) in
      {| controllers := controllers w;
         batchChangesHook := batchChangesHook w;
         changesetsHook := f;
         tasks := tasks w;
         effects := effects w ++ es |}
  | Trigger h => trigger h w
  | Settled_publishChangeset t error =>
      match tasks w !! t, error with
      | Some (AfterPublish toastTitle refresh), None =>
          set_task t (AfterTimeout refresh)
            [ Eff_showToast {| style := Style_Success;
                               toast_title := toastTitle;
                               toast_message := None;
                               primaryAction := None |};
              Eff_setTimeout refreshDelay ] w
      | Some (AfterPublish _ _), Some e =>
          set_task t Finished [Eff_unhandledRejection e] w
      | _, _ => w
      end
  | TimerFired t =>
      match tasks w !! t with
      | Some (AfterTimeout refresh) => load refresh (set_task t Finished [] w)
      | _ => w
      end
  end.

Definition run (evs : list Event) (w : World) : World := foldl step w evs.

(** The port honours cancellation: once a request's signal is aborted, the
    only way it settles is by rejecting with an abort error. *)
Definition honours_abort {T} (controllers : list bool) (a : nat) (o : Outcome T)
    : bool :=
  match controllers !! a, o with
  | Some true, Rejected e => Js.isAbort e
  | Some true, Resolved _ => false
  | _, _ => true
  end.

Definition cooperative (w : World) (ev : Event) : bool :=
  match ev with
  | Settled_getBatchChanges a o => honours_abort (controllers w) a o
  | Settled_getChangesets a o => honours_abort (controllers w) a o
  | _ => true
  end.

Inductive reachable : World -> Prop :=
| reachable_init : reachable init
| reachable_step w ev :
    reachable w -> cooperative w ev = true -> reachable (step w ev).

End EventLoop.

(** ** Vocabulary of the properties *)

(** A computation that returns (never throws), with a result satisfying [P],
    whatever the console held before. *)
Definition renders {A} (m : Js.M A) (P : A -> Prop) : Prop :=
  forall out, exists a out', m out = (Js.Returns a, out') /\ P a.

(** Custom actions carrying a given title. *)
Definition titled (t : string) (a : Action) : bool :=
  match a with
  | Action_ t' _ _ _ => bool_decide (t' = t)
  | _ => false
  end.

(** Actions whose handler calls [publishChangeset]. *)
Definition publishes (a : Action) : bool :=
  match a with
  | Action_ _ _ (PublishThenRefresh _ _ _ _ _) _ => true
  | _ => false
  end.

Definition count_if {A} (p : A -> bool) (l : list A) : nat :=
  List.length (List.filter p l).

Definition handler_of (a : Action) : option Handler :=
  match a with
  | Action_ _ _ h _ => Some h
  | _ => None
  end.


(** The creator shown for a batch change. *)
Definition author_of (b : gql.BatchChange) : string :=
  Js.or_else (gql.displayName (gql.creator b)) (gql.username (gql.creator b)).

(** Every controller a hook refers to has been allocated. *)
Definition fetcher_wf {T} (controllers : list bool) (f : Fetcher T) : Prop :=
  (forall a, cancelRef f = Some a -> a < List.length controllers) /\
  (forall a, a ∈ awaiting f -> a < List.length controllers).

(** A suspended [load] whose signal has not been aborted is the current one,
    and the list is still blank on its behalf. *)
Definition fetcher_inv {T} (controllers : list bool) (f : Fetcher T) : Prop :=
  forall a, a ∈ awaiting f -> controllers !! a = Some false ->
            cancelRef f = Some a /\ items (state f) = [].

Definition wf (w : World) : Prop :=
  fetcher_wf (controllers w) (batchChangesHook w) /\
  fetcher_wf (controllers w) (changesetsHook w).

Definition inv (w : World) : Prop :=
  fetcher_inv (controllers w) (batchChangesHook w) /\
  fetcher_inv (controllers w) (changesetsHook w).

(** Controllers are only ever added or aborted. *)
Definition evolves (cs cs' : list bool) : Prop :=
  List.length cs <= List.length cs' /\
  forall a, a < List.length cs -> cs' !! a = Some false -> cs !! a = Some false.




(** The port call each hook issues. *)
Definition request_of (src : Sourcegraph) (batchChange : gql.BatchChange)
    (h : Hook) : nat -> Effect :=
  match h with
  | useBatchChanges => fun a => Eff_getBatchChanges a src
  | useChangesets =>
      fun a => Eff_getChangesets a src (gql.ns_id (gql.namespace batchChange))
                 (gql.bc_name batchChange)
  end.

(** Case analysis on the tests of a [switch]. *)
Ltac switch_cases :=
  repeat case_bool_decide; first [done | exfalso; intuition congruence].

(** ** Sample data *)

Definition sourcegraph_com : Sourcegraph := {| instance := "https://sourcegraph.com" |}.

Definition sample_batchChange : gql.BatchChange :=
  {| gql.bc_id := "QmF0Y2hDaGFuZ2U6MQ==";
     gql.bc_name := "bump-deps";
     gql.namespace := {| gql.ns_id := "VXNlcjox"; gql.namespaceName := "alice" |};
     gql.bc_state := "OPEN";
     gql.creator := {| gql.displayName := None; gql.username := "alice" |};
     gql.bc_updatedAt := "";
     gql.changesetsStats :=
       {| gql.total := 10; gql.open := 3; gql.closed := 2; gql.merged := 5;
          gql.failed := 0 |};
     gql.bc_url := "/batch-changes/1" |}.

Definition sample_changeset (state : string) (review externalID : option string)
    : gql.Changeset :=
  {| gql.cs_id := "Q2hhbmdlc2V0OjE=";
     gql.cs_state := state;
     gql.reviewState := review;
     gql.externalID := externalID;
     gql.externalURL := None;
     gql.cs_updatedAt := "2022-03-01T10:00:00Z";
     gql.repository := {| gql.repo_name := "github.com/acme/app" |} |}.

(** A date library that reports the empty string as an invalid date and
    anything else as three days old. *)
Definition sample_dates : DateTime :=
  {| fromISO_toRelative s :=
       match s with
       | EmptyString => Js.Returns None
       | _ => Js.Returns (Some "3 days ago")
       end |}.

(** ** Vocabulary of the further properties *)

(** The same changeset under another review state. *)
Definition with_reviewState (c : gql.Changeset) (rs : option string)
    : gql.Changeset :=
  {| gql.cs_id := gql.cs_id c;
     gql.cs_state := gql.cs_state c;
     gql.reviewState := rs;
     gql.externalID := gql.externalID c;
     gql.externalURL := gql.externalURL c;
     gql.cs_updatedAt := gql.cs_updatedAt c;
     gql.repository := gql.repository c |}.

(** The hook whose [load] a handler ends up calling. *)
Definition refresh_target (h : Handler) : Hook :=
  match h with
  | AwaitRefresh refresh => refresh
  | PublishThenRefresh _ _ _ _ refresh => refresh
  end.

(** The signal handed to a port call. *)
Definition signal_of (e : Effect) : option nat :=
  match e with
  | Eff_getBatchChanges a _ => Some a
  | Eff_getChangesets a _ _ _ => Some a
  | Eff_publishChangeset a _ _ _ => Some a
  | _ => None
  end.

Definition signals (w : World) : list nat := omap signal_of (effects w).

Definition same_hook (h h' : Hook) : bool :=
  match h, h' with
  | useBatchChanges, useBatchChanges | useChangesets, useChangesets => true
  | _, _ => false
  end.

(** Events that can run code of hook [h]: calls of its [load], settlements
    of its requests, and timers (a timer resumes a handler that refreshes). *)
Definition touches (h : Hook) (ev : Event) : bool :=
  match ev with
  | CallLoad h' => same_hook h' h
  | Settled_getBatchChanges _ _ => same_hook useBatchChanges h
  | Settled_getChangesets _ _ => same_hook useChangesets h
  | Trigger (AwaitRefresh h') => same_hook h' h
  | Trigger (PublishThenRefresh _ _ _ _ _) => false
  | Settled_publishChangeset _ _ => false
  | TimerFired _ => true
  end.

(** What a hook keeps whatever the port does: the search text is never
    written; a loading list is blank; while loading, the current request is
    in flight; a suspended [load] with a live signal is the current one. *)
Definition fetcher_steady {T} (controllers : list bool) (f : Fetcher T) : Prop :=
  searchText (state f) = "" /\
  (isLoading (state f) = true -> items (state f) = []) /\
  (forall a, cancelRef f = Some a -> isLoading (state f) = true ->
             a ∈ awaiting f) /\
  (forall a, a ∈ awaiting f -> controllers !! a = Some false ->
             cancelRef f = Some a).

Definition steady (w : World) : Prop :=
  fetcher_steady (controllers w) (batchChangesHook w) /\
  fetcher_steady (controllers w) (changesetsHook w).

(** Signals in the effect log are those of allocated controllers, each
    used once. *)
Definition signals_fresh (w : World) : Prop :=
  NoDup (signals w) /\
  forall a, a ∈ signals w -> a < List.length (controllers w).

(** A sequence of events in which the port honours cancellation at every
    settlement. *)
Fixpoint cooperative_trace (src : Sourcegraph) (batchChange : gql.BatchChange)
    (w : World) (evs : list Event) : Prop :=
  match evs with
  | [] => True
  | ev :: evs =>
      cooperative w ev = true /\
      cooperative_trace src batchChange (step src batchChange w ev) evs
  end.

(** Events that settle request [a] of hook [h]. *)
Definition settles (h : Hook) (a : nat) (ev : Event) : bool :=
  match ev with
  | Settled_getBatchChanges a' _ => same_hook useBatchChanges h && (a' =? a)%nat
  | Settled_getChangesets a' _ => same_hook useChangesets h && (a' =? a)%nat
  | _ => false
  end.

(** * Properties *)

Lemma append_assoc (s1 s2 s3 : string) : (s1 ++ s2) ++ s3 = s1 ++ (s2 ++ s3).
Proof.
  induction s1 as [|c s1 IH]; [reflexivity|].
  change (String c ((s1 ++ s2) ++ s3) = String c (s1 ++ s2 ++ s3)).
  by rewrite IH.
Qed.

(** ** The item components never throw *)

Section ComponentFacts.
Context `{DateTime}.

(** The [try]/[catch] turns every outcome of the date library into a value:
    the relative time when there is one, [null] otherwise. *)
Lemma relativeUpdate_returns what id updatedAt out :
  exists out',
    relativeUpdate what id updatedAt out =
      (Js.Returns match fromISO_toRelative updatedAt with
                  | Js.Returns u => u
                  | Js.Throws _ => None
                  end, out').
Proof.
  unfold relativeUpdate, Js.try_catch, Js.lift.
  destruct (fromISO_toRelative updatedAt) as [u|e]; [by eexists|].
  cbn. unfold Js.bind, Js.console_warn. by eexists.
Qed.

Lemma BatchChange_returns b src refresh out :
  exists out',
    BatchChange b src refresh out =
      (Js.Returns
         (BatchChange_item b src refresh
            match fromISO_toRelative (gql.bc_updatedAt b) with
            | Js.Returns u => u
            | Js.Throws _ => None
            end), out').
Proof.
  unfold BatchChange.
  destruct (relativeUpdate_returns "batch change" (gql.bc_id b)
              (gql.bc_updatedAt b) out) as [out' E].
  exists out'. unfold mbind, M_bind, Js.bind. by rewrite E.
Qed.

Lemma ChangesetItem_returns src b c refresh out :
  exists out',
    ChangesetItem src b c refresh out =
      (Js.Returns
         (ChangesetItem_item src b c refresh
            match fromISO_toRelative (gql.cs_updatedAt c) with
            | Js.Returns u => u
            | Js.Throws _ => None
            end), out').
Proof.
  unfold ChangesetItem.
  destruct (relativeUpdate_returns "changeset" (gql.cs_id c)
              (gql.cs_updatedAt c) out) as [out' E].
  exists out'. unfold mbind, M_bind, Js.bind. by rewrite E.
Qed.

(** A property of every item a component can build is a property of what it
    renders. *)
Lemma BatchChange_renders b src refresh (P : ListItem -> Prop) :
  (forall updated, P (BatchChange_item b src refresh updated)) ->
  renders (BatchChange b src refresh) P.
Proof.
  intros HP out. destruct (BatchChange_returns b src refresh out) as [out' E].
  eauto.
Qed.

Lemma ChangesetItem_renders src b c refresh (P : ListItem -> Prop) :
  (forall updated, P (ChangesetItem_item src b c refresh updated)) ->
  renders (ChangesetItem src b c refresh) P.
Proof.
  intros HP out. destruct (ChangesetItem_returns src b c refresh out) as [out' E].
  eauto.
Qed.

End ComponentFacts.

(** ** Status projection of a changeset *)

(** C4. A changeset item offers one "Retry Changeset" action exactly in
    state FAILED and one "Publish Changeset" action exactly in state
    UNPUBLISHED; in every other state no action of the item calls the
    publish operation at all. *)
Theorem changeset_item_secondary_action `{DateTime} src b c refresh :
  renders (ChangesetItem src b c refresh) (fun item =>
    count_if (titled "Retry Changeset") (actions item)
      = (if bool_decide (gql.cs_state c = "FAILED") then 1 else 0) /\
    count_if (titled "Publish Changeset") (actions item)
      = (if bool_decide (gql.cs_state c = "UNPUBLISHED") then 1 else 0) /\
    count_if publishes (actions item)
      = (if bool_decide (gql.cs_state c = "FAILED" \/
                         gql.cs_state c = "UNPUBLISHED") then 1 else 0)).
Proof.
  apply ChangesetItem_renders; intros updated.
  unfold ChangesetItem_item, ChangesetItem_switch.
  destruct c as [id st rs eid eurl upd repo]; cbn [gql.cs_state].
  destruct (bool_decide (st = "OPEN")) eqn:E1;
    [|destruct (bool_decide (st = "MERGED")) eqn:E2;
      [|destruct (bool_decide (st = "CLOSED")) eqn:E3;
        [|destruct (bool_decide (st = "FAILED")) eqn:E4;
          [|destruct (bool_decide (st = "UNPUBLISHED")) eqn:E5;
            [|destruct (bool_decide (st = "PROCESSING")
                        || bool_decide (st = "RETRYING")) eqn:E6]]]]];
    repeat match goal with
           | E : bool_decide _ = true |- _ => apply bool_decide_eq_true in E
           | E : bool_decide _ = false |- _ => apply bool_decide_eq_false in E
           end;
    subst; cbn; repeat split; switch_cases.
Qed.

(** C5 (as stated) fails: an OPEN, APPROVED changeset that carries an
    external identifier is rendered with the identifier in front of the
    review state, so its subtitle is not the bare lowercased review state. *)
Lemma open_changeset_subtitle_has_external_id :
  exists item out,
    ChangesetItem (H := sample_dates) sourcegraph_com sample_batchChange
      (sample_changeset "OPEN" (Some "APPROVED") (Some "42")) useChangesets []
      = (Js.Returns item, out) /\
    subtitle item = "#42 approved" /\
    subtitle item <> "approved".
Proof. eexists _, _. split; [reflexivity|]. split; [reflexivity|discriminate]. Qed.

(** C5 (amended). For a changeset in state OPEN the subtitle is the
    lowercased review state (empty when absent), preceded by
    ["#{externalID} "] when an external identifier is present; the icon is
    the check mark for APPROVED, the crossed circle for CHANGES_REQUESTED
    and the open circle otherwise; the tint is green in every case.  With
    review state APPROVED and no external identifier the subtitle is
    "approved". *)
Theorem open_changeset_projection `{DateTime} src b c refresh :
  gql.cs_state c = "OPEN" ->
  renders (ChangesetItem src b c refresh) (fun item =>
    subtitle item
      = (if Js.truthy (gql.externalID c)
         then "#" ++ default "" (gql.externalID c) ++ " " else "")
        ++ Js.or_else (Js.toLowerCase <$> gql.reviewState c) "" /\
    (gql.reviewState c = Some "APPROVED" ->
       source (accessoryIcon item) = Icon_Checkmark) /\
    (gql.reviewState c = Some "CHANGES_REQUESTED" ->
       source (accessoryIcon item) = Icon_XmarkCircle) /\
    (gql.reviewState c <> Some "APPROVED" ->
     gql.reviewState c <> Some "CHANGES_REQUESTED" ->
       source (accessoryIcon item) = Icon_Circle) /\
    tintColor (accessoryIcon item) = Some Color_Green /\
    (gql.reviewState c = Some "APPROVED" ->
     Js.truthy (gql.externalID c) = false ->
       subtitle item = "approved")).
Proof.
  intros Hopen. apply ChangesetItem_renders; intros updated.
  unfold ChangesetItem_item, ChangesetItem_switch.
  rewrite Hopen. cbn -[String.append Js.toLowerCase].
  repeat split.
  - intros ->. done.
  - intros ->. done.
  - intros Ha Hc. destruct (gql.reviewState c) as [rs|]; [|done].
    repeat case_bool_decide; first [reflexivity | congruence].
  - intros -> ->. reflexivity.
Qed.

Lemma open_changeset_projection_witness :
  renders (ChangesetItem (H := sample_dates) sourcegraph_com sample_batchChange
             (sample_changeset "OPEN" (Some "APPROVED") None) useChangesets)
    (fun item =>
       subtitle item = "approved" /\
       accessoryIcon item
         = {| source := Icon_Checkmark; tintColor := Some Color_Green |}).
Proof.
  intros out.
  destruct (open_changeset_projection (H := sample_dates) sourcegraph_com
              sample_batchChange
              (sample_changeset "OPEN" (Some "APPROVED") None) useChangesets
              eq_refl out) as (item & out' & E & Hsub & Happ & _ & _ & Htint & _).
  exists item, out'. split; [exact E|]. split; [exact Hsub|].
  destruct (accessoryIcon item) as [s t]; cbn in *.
  rewrite (Happ eq_refl), Htint. reflexivity.
Defined.

(** ** Status projection of a batch change *)

(** C6. The accessory summary of a batch change is
    ["{merged} / {closed+merged+open} / {total}"] when [total > 0] and is
    absent when [total = 0]. *)
Theorem batch_change_accessory_summary `{DateTime} b src refresh :
  renders (BatchChange b src refresh) (fun item =>
    let stats := gql.changesetsStats b in
    ((0 < gql.total stats)%Z ->
       accessoryTitle item
         = Some (pretty (gql.merged stats) ++ " / "
                 ++ pretty (gql.closed stats + gql.merged stats
                            + gql.open stats)%Z
                 ++ " / " ++ pretty (gql.total stats))) /\
    (gql.total stats = 0%Z -> accessoryTitle item = None)).
Proof.
  apply BatchChange_renders; intros updated.
  unfold BatchChange_item, Js.truthyZ; cbn -[String.append pretty Z.add].
  split; intros Ht.
  - destruct (Z.eqb_spec (gql.total (gql.changesetsStats b)) 0); [lia|done].
  - by rewrite Ht.
Qed.

Lemma batch_change_accessory_summary_witness :
  renders (BatchChange (H := sample_dates) sample_batchChange sourcegraph_com
             useBatchChanges)
    (fun item => accessoryTitle item = Some "5 / 10 / 10").
Proof.
  intros out.
  destruct (batch_change_accessory_summary (H := sample_dates)
              sample_batchChange sourcegraph_com useBatchChanges out)
    as (item & out' & E & Hpos & _).
  exists item, out'. split; [exact E|].
  rewrite Hpos; [reflexivity|reflexivity].
Defined.

(** C7 (as stated) fails: when the timestamp does not parse, the subtitle
    is the creator's name alone, without the leading "by". *)
Lemma unparsed_date_subtitle_lacks_by :
  exists item out,
    fromISO_toRelative (DateTime := sample_dates)
      (gql.bc_updatedAt sample_batchChange) = Js.Returns None /\
    BatchChange (H := sample_dates) sample_batchChange sourcegraph_com
      useBatchChanges [] = (Js.Returns item, out) /\
    subtitle item = "alice" /\
    subtitle item <> "by " ++ author_of sample_batchChange.
Proof.
  eexists _, _. split; [reflexivity|]. split; [reflexivity|].
  split; [reflexivity|discriminate].
Qed.

(** C7 (amended). Rendering a batch change never throws, whatever the date
    library does with the timestamp.  When the library yields a relative
    time the subtitle is ["by {creator}, updated {relativeTime}"]; when the
    timestamp does not parse (the library yields nothing, or throws) the
    subtitle is ["{creator}"]. *)
Theorem batch_change_subtitle `{DateTime} b src refresh :
  renders (BatchChange b src refresh) (fun item =>
    subtitle item
      = match fromISO_toRelative (gql.bc_updatedAt b) with
        | Js.Returns (Some (String c rest)) =>
            "by " ++ author_of b ++ ", updated " ++ String c rest
        | Js.Returns (Some EmptyString) | Js.Returns None | Js.Throws _ =>
            author_of b
        end).
Proof.
  intros out. destruct (BatchChange_returns b src refresh out) as [out' E].
  eexists _, out'. split; [exact E|].
  unfold BatchChange_item, author_of; cbn -[String.append].
  destruct (fromISO_toRelative (gql.bc_updatedAt b)) as [[[|c rest]|]|e];
    reflexivity.
Qed.

(** A date library that throws is survived as well, and leaves a warning on
    the console. *)
Lemma batch_change_survives_throwing_dates b src refresh e out :
  let dates := {| fromISO_toRelative _ := Js.Throws e |} in
  BatchChange (H := dates) b src refresh out
  = (Js.Returns (BatchChange_item b src refresh None),
     (out ++ [("batch change " ++ gql.bc_id b ++ ": invalid date: "
               ++ Js.String_ e)%string])%list).
Proof. reflexivity. Qed.

(** ** Canonical URL of a changeset *)

(** C8. The URL opened in the browser and copied to the clipboard is the
    changeset's external URL when it has one, and otherwise the instance
    URL followed by the batch change's URL and ["?status={state}"]. *)
Theorem changeset_canonical_url `{DateTime} src b c refresh :
  let derived :=
    instance src ++ gql.bc_url b ++ "?status=" ++ gql.cs_state c in
  let canonical :=
    match gql.externalURL c with
    | Some {| gql.url := String ch rest |} => String ch rest
    | Some {| gql.url := EmptyString |} | None => derived
    end in
  renders (ChangesetItem src b c refresh) (fun item =>
    head (actions item) = Some (Action_OpenInBrowser None canonical None) /\
    Action_CopyToClipboard None canonical (Some copyShortcut) ∈ actions item) /\
  ChangesetItem_url src sample_batchChange (sample_changeset "CLOSED" None None)
    = instance src ++ "/batch-changes/1?status=CLOSED".
Proof.
  intros derived canonical. split; [|reflexivity].
  apply ChangesetItem_renders; intros updated.
  assert (ChangesetItem_url src b c = canonical) as Hurl.
  { unfold ChangesetItem_url, canonical, derived.
    destruct (gql.externalURL c) as [[[|ch rest]]|]; reflexivity. }
  unfold ChangesetItem_item.
  destruct (ChangesetItem_switch src b c refresh) as [[ic sec] sub].
  cbn [actions]. rewrite Hurl. split; [reflexivity|].
  rewrite !elem_of_app, !elem_of_cons. right. right. right. left. reflexivity.
Qed.

(** ** The batch-change list *)

(** C9 fails at the cap: a page of exactly 100 batch changes is announced
    as "100 batch changes"; the ["+"] suffix requires more than 100 items. *)
Theorem full_page_is_announced_without_plus instanceName src :
  let state : BatchChangesState :=
    {| searchText := ""; items := replicate 100 sample_batchChange;
       isLoading := false |} in
  sec_subtitle <$> sections (ViewBatchChanges instanceName src state)
  = ["100 batch changes"].
Proof. reflexivity. Qed.

(** Whatever the count, the section subtitle reads "{count} batch changes"
    up to 100 items and "{count}+ batch changes" beyond. *)
Lemma ViewBatchChanges_subtitle instanceName src (state : BatchChangesState) :
  let count := List.length (items state) in
  sec_subtitle <$> sections (ViewBatchChanges instanceName src state)
  = [ if bool_decide (count <= 100)
      then pretty count ++ " batch changes"
      else pretty count ++ "+ batch changes" ].
Proof.
  cbn -[String.append Nat.ltb pretty].
  destruct (Nat.ltb_spec 100 (List.length (items state)));
    case_bool_decide; try lia; [|reflexivity].
  by rewrite append_assoc.
Qed.

(** ** The fetch hooks *)

Lemma evolves_refl cs : evolves cs cs.
Proof. split; [lia|auto]. Qed.

Lemma evolves_abort cs a : evolves cs (<[a := true]> cs).
Proof.
  split; [by rewrite length_insert|].
  intros b Hb Hlook. destruct (decide (a = b)) as [->|Hne].
  - rewrite list_lookup_insert_eq in Hlook by done. discriminate.
  - by rewrite list_lookup_insert_ne in Hlook.
Qed.

Lemma evolves_alloc cs : evolves cs (cs ++ [false]).
Proof.
  split; [rewrite length_app; lia|].
  intros b Hb Hlook. by rewrite lookup_app_l in Hlook.
Qed.

Lemma evolves_trans cs1 cs2 cs3 :
  evolves cs1 cs2 -> evolves cs2 cs3 -> evolves cs1 cs3.
Proof.
  intros [L1 A1] [L2 A2]. split; [lia|].
  intros a Ha Hlook. apply A1; [done|]. apply A2; [lia|done].
Qed.

Section LoadCallFacts.
Context {T : Type}.
Variable request : nat -> Effect.
Implicit Types (f : Fetcher T) (cs : list bool).

Lemma abort_current_evolves cs f : evolves cs (abort_current cs f).
Proof.
  unfold abort_current. destruct (cancelRef f); [apply evolves_abort|apply evolves_refl].
Qed.

Lemma abort_current_length cs f :
  List.length (abort_current cs f) = List.length cs.
Proof. unfold abort_current. destruct (cancelRef f); [apply length_insert|done]. Qed.

Lemma load_call_evolves cs f : evolves cs (load_call request cs f).1.1.
Proof.
  cbn. eapply evolves_trans; [apply abort_current_evolves|apply evolves_alloc].
Qed.

Lemma fetcher_wf_evolves cs cs' f :
  evolves cs cs' -> fetcher_wf cs f -> fetcher_wf cs' f.
Proof.
  intros [Hlen _] [Hc Ha]. split; intros a Hin.
  - specialize (Hc a Hin). lia.
  - specialize (Ha a Hin). lia.
Qed.

Lemma fetcher_inv_evolves cs cs' f :
  evolves cs cs' -> fetcher_wf cs f -> fetcher_inv cs f -> fetcher_inv cs' f.
Proof.
  intros [_ Hmono] [_ Ha] Hinv a Hin Hlook.
  apply Hinv; [done|]. apply Hmono; [by apply Ha|done].
Qed.

Lemma load_call_wf cs f :
  fetcher_wf cs f -> fetcher_wf (load_call request cs f).1.1 (load_call request cs f).1.2.
Proof.
  intros [Hc Ha]. unfold fetcher_wf; cbn.
  rewrite length_app, abort_current_length; cbn.
  split.
  - intros a [= <-]. lia.
  - intros a [->|Hin]%elem_of_cons; [lia|]. specialize (Ha a Hin). lia.
Qed.

(** Starting a [load] aborts whatever was current: afterwards the new
    invocation is the only one whose signal is not aborted. *)
Lemma load_call_inv cs f :
  fetcher_wf cs f -> fetcher_inv cs f ->
  fetcher_inv (load_call request cs f).1.1 (load_call request cs f).1.2.
Proof.
  intros [Hc Ha] Hinv a Hin Hlook. cbn in *.
  apply elem_of_cons in Hin as [->|Hin]; [done|].
  exfalso. pose proof (Ha a Hin) as Hlt.
  rewrite lookup_app_l in Hlook by (by rewrite abort_current_length).
  unfold abort_current in Hlook.
  destruct (cancelRef f) as [c|] eqn:Ec.
  - destruct (decide (c = a)) as [->|Hne].
    + rewrite list_lookup_insert_eq in Hlook by done. discriminate.
    + rewrite list_lookup_insert_ne in Hlook by done.
      destruct (Hinv a Hin Hlook) as [Hcur _]. congruence.
  - destruct (Hinv a Hin Hlook) as [Hcur _]. congruence.
Qed.


End LoadCallFacts.

Section SettleFacts.
Context {T : Type}.
Variable failed : string.
Implicit Types (f : Fetcher T) (cs : list bool).

Lemma settle_wf cs a o f :
  fetcher_wf cs f -> fetcher_wf cs (settle failed a o f).1.
Proof.
  intros [Hc Ha]. unfold settle. case_bool_decide; [|done].
  destruct o; cbn; (split; [done|]);
    intros b [_ Hin]%list_elem_of_filter; by apply Ha.
Qed.

(** A request that settles in keeping with its signal leaves the invariant
    in place. *)
Lemma settle_inv cs a o f :
  honours_abort cs a o = true ->
  fetcher_wf cs f -> fetcher_inv cs f -> fetcher_inv cs (settle failed a o f).1.
Proof.
  intros Hcoop [_ Ha] Hinv. unfold settle. case_bool_decide as Hin; [|done].
  intros b Hb Hlook.
  assert (b ∈ awaiting f /\ b <> a) as [Hbin Hne].
  { destruct o; cbn in Hb; apply list_elem_of_filter in Hb; tauto. }
  destruct (Hinv b Hbin Hlook) as [Hcur Hitems].
  destruct o as [nodes|e]; cbn; [|done].
  exfalso. unfold honours_abort in Hcoop.
  destruct (cs !! a) as [[|]|] eqn:Ea; [discriminate| |].
  - destruct (Hinv a Hin Ea) as [Hcur' _]. congruence.
  - apply lookup_ge_None in Ea. specialize (Ha a Hin). lia.
Qed.

(** There is no gate on the resuming side: any suspended invocation,
    current or superseded, writes its outcome into the state. *)
Lemma settle_resolved_applies a nodes f :
  a ∈ awaiting f ->
  state (settle failed a (Resolved nodes) f).1
  = {| searchText := searchText (state f);
       items := default [] nodes;
       isLoading := false |}.
Proof. intros Hin. unfold settle. by rewrite bool_decide_eq_true_2. Qed.

Lemma settle_rejected_applies a e f :
  a ∈ awaiting f ->
  settle failed a (Rejected e) f
  = ({| state := {| searchText := searchText (state f);
                    items := items (state f);
                    isLoading := false |};
        cancelRef := cancelRef f;
        awaiting := filter (fun b => b <> a) (awaiting f) |},
     [Eff_showToast (failureToast failed e)]).
Proof. intros Hin. unfold settle. by rewrite bool_decide_eq_true_2. Qed.

End SettleFacts.

(** ** The event loop *)

Section EventLoopFacts.
Variable src : Sourcegraph.
Variable batchChange : gql.BatchChange.

Implicit Types (w : World) (ev : Event) (h : Hook).

Lemma step_Settled_getBatchChanges w a o :
  step src batchChange w (Settled_getBatchChanges a o)
  = {| controllers := controllers w;
       batchChangesHook :=
         (settle "Get batch changes failed" a o (batchChangesHook w)).1;
       changesetsHook := changesetsHook w;
       tasks := tasks w;
       effects :=
         effects w
         ++ (settle "Get batch changes failed" a o (batchChangesHook w)).2 |}.
Proof. cbn. by destruct (settle _ a o (batchChangesHook w)). Qed.

Lemma step_Settled_getChangesets w a o :
  step src batchChange w (Settled_getChangesets a o)
  = {| controllers := controllers w;
       batchChangesHook := batchChangesHook w;
       changesetsHook :=
         (settle "Get changesets failed" a o (changesetsHook w)).1;
       tasks := tasks w;
       effects :=
         effects w
         ++ (settle "Get changesets failed" a o (changesetsHook w)).2 |}.
Proof. cbn. by destruct (settle _ a o (changesetsHook w)). Qed.

Lemma load_evolves h w : evolves (controllers w) (controllers (load src batchChange h w)).
Proof.
  destruct h;
    [apply (load_call_evolves (request_of src batchChange useBatchChanges) (controllers w))
    |apply (load_call_evolves (request_of src batchChange useChangesets) (controllers w))].
Qed.

Lemma load_wf h w : wf w -> wf (load src batchChange h w).
Proof.
  intros [Hb Hc]. destruct h; split.
  - by apply (load_call_wf (request_of src batchChange useBatchChanges) (controllers w)).
  - eapply fetcher_wf_evolves; [apply (load_evolves useBatchChanges)|done].
  - eapply fetcher_wf_evolves; [apply (load_evolves useChangesets)|done].
  - by apply (load_call_wf (request_of src batchChange useChangesets) (controllers w)).
Qed.

Lemma load_inv h w : wf w -> inv w -> inv (load src batchChange h w).
Proof.
  intros [Hb Hc] [Ib Ic]. destruct h; split.
  - by apply (load_call_inv (request_of src batchChange useBatchChanges) (controllers w)).
  - eapply fetcher_inv_evolves; [apply (load_evolves useBatchChanges)|done..].
  - eapply fetcher_inv_evolves; [apply (load_evolves useChangesets)|done..].
  - by apply (load_call_inv (request_of src batchChange useChangesets) (controllers w)).
Qed.

Lemma alloc_wf w k es :
  wf w ->
  wf {| controllers := controllers w ++ [false];
        batchChangesHook := batchChangesHook w;
        changesetsHook := changesetsHook w;
        tasks := k; effects := es |}.
Proof.
  intros [Hb Hc].
  split; (eapply fetcher_wf_evolves; [apply evolves_alloc|done]).
Qed.

Lemma alloc_inv w k es :
  wf w -> inv w ->
  inv {| controllers := controllers w ++ [false];
         batchChangesHook := batchChangesHook w;
         changesetsHook := changesetsHook w;
         tasks := k; effects := es |}.
Proof.
  intros [Hb Hc] [Ib Ic].
  split; (eapply fetcher_inv_evolves; [apply evolves_alloc|done..]).
Qed.

Lemma step_wf w ev : wf w -> wf (step src batchChange w ev).
Proof.
  intros Hwf. destruct ev as [h|a o|a o|h|t e|t].
  - by apply load_wf.
  - rewrite step_Settled_getBatchChanges. destruct Hwf as [Hb Hc].
    split; [by apply settle_wf|done].
  - rewrite step_Settled_getChangesets. destruct Hwf as [Hb Hc].
    split; [done|by apply settle_wf].
  - destruct h; [by apply load_wf|by apply alloc_wf].
  - cbn. destruct (tasks w !! t) as [[| |]|]; try done. by destruct e.
  - cbn. destruct (tasks w !! t) as [[| |]|]; try done. by apply load_wf.
Qed.

Lemma step_inv w ev :
  cooperative w ev = true -> wf w -> inv w -> inv (step src batchChange w ev).
Proof.
  intros Hcoop Hwf Hinv. destruct ev as [h|a o|a o|h|t e|t].
  - by apply load_inv.
  - rewrite step_Settled_getBatchChanges. cbn in Hcoop.
    destruct Hwf as [Hb Hc], Hinv as [Ib Ic].
    split; [by apply settle_inv|done].
  - rewrite step_Settled_getChangesets. cbn in Hcoop.
    destruct Hwf as [Hb Hc], Hinv as [Ib Ic].
    split; [done|by apply settle_inv].
  - destruct h; [by apply load_inv|by apply alloc_inv].
  - cbn. destruct (tasks w !! t) as [[| |]|]; try done. by destruct e.
  - cbn. destruct (tasks w !! t) as [[| |]|]; try done. by apply load_inv.
Qed.

Lemma reachable_wf_inv w : reachable src batchChange w -> wf w /\ inv w.
Proof.
  induction 1 as [|w ev _ [Hwf Hinv] Hcoop].
  - split; split.
    1,2: split; intros ? Ha; [discriminate|by apply elem_of_nil in Ha].
    all: intros ? Ha; by apply elem_of_nil in Ha.
  - split; [by apply step_wf|by apply step_inv].
Qed.

(** Under a port that honours cancellation, a suspended [load] that fails
    with anything but an abort error is the current one, and nothing has
    filled the list since it blanked it. *)
Lemma rejected_not_aborted {T} cs (f : Fetcher T) a e :
  fetcher_wf cs f -> fetcher_inv cs f ->
  a ∈ awaiting f -> Js.isAbort e = false ->
  honours_abort cs a (@Rejected T e) = true ->
  cancelRef f = Some a /\ items (state f) = [].
Proof.
  intros [_ Ha] Hinv Hin Hna Hcoop. apply Hinv; [done|].
  unfold honours_abort in Hcoop.
  destruct (cs !! a) as [[|]|] eqn:Ea; [congruence|done|].
  apply lookup_ge_None in Ea. specialize (Ha a Hin). lia.
Qed.

End EventLoopFacts.

(** ** Failure and supersession of [load] *)

(** Under a port that honours cancellation, a request in flight that fails
    with an error other than a cancellation finds the list blank and leaves
    it blank and not loading. *)
Lemma live_failure_leaves_blank src b w a e :
  reachable src b w -> Js.isAbort e = false ->
  (a ∈ awaiting (batchChangesHook w) ->
   cooperative w (Settled_getBatchChanges a (Rejected e)) = true ->
   state (batchChangesHook
            (step src b w (Settled_getBatchChanges a (Rejected e))))
   = {| searchText := searchText (state (batchChangesHook w));
        items := []; isLoading := false |}) /\
  (a ∈ awaiting (changesetsHook w) ->
   cooperative w (Settled_getChangesets a (Rejected e)) = true ->
   state (changesetsHook
            (step src b w (Settled_getChangesets a (Rejected e))))
   = {| searchText := searchText (state (changesetsHook w));
        items := []; isLoading := false |}).
Proof.
  intros [[Hb Hc] [Ib Ic]]%reachable_wf_inv Hna. split; intros Hin Hcoop.
  - destruct (rejected_not_aborted _ _ a e Hb Ib Hin Hna Hcoop) as [_ Hitems].
    rewrite step_Settled_getBatchChanges; cbn [batchChangesHook].
    rewrite settle_rejected_applies by done. cbn. by rewrite Hitems.
  - destruct (rejected_not_aborted _ _ a e Hc Ic Hin Hna Hcoop) as [_ Hitems].
    rewrite step_Settled_getChangesets; cbn [changesetsHook].
    rewrite settle_rejected_applies by done. cbn. by rewrite Hitems.
Qed.

(** C1 fails on the code.  The first [load] is superseded by a second one;
    its request is then rejected because its signal was aborted.  The
    rejection is handled like any failure: [isLoading] becomes [false]
    although the second request is still in flight. *)
Theorem superseded_load_clears_loading src b :
  let rejected_first h :=
    match h with
    | useBatchChanges => Settled_getBatchChanges 0 (Rejected Js.AbortError)
    | useChangesets => Settled_getChangesets 0 (Rejected Js.AbortError)
    end in
  let loading h w :=
    match h with
    | useBatchChanges =>
        (cancelRef (batchChangesHook w), awaiting (batchChangesHook w),
         isLoading (state (batchChangesHook w)))
    | useChangesets =>
        (cancelRef (changesetsHook w), awaiting (changesetsHook w),
         isLoading (state (changesetsHook w)))
    end in
  forall h,
    let w2 := run src b [CallLoad h; CallLoad h] init in
    let w3 := step src b w2 (rejected_first h) in
    controllers w2 = [true; false] /\
    loading h w2 = (Some 1, [1; 0], true) /\
    cooperative w2 (rejected_first h) = true /\
    loading h w3 = (Some 1, [1], false).
Proof. intros rejected_first loading []; repeat split. Qed.

(** C2 fails on the code.  In the same run the cancellation of the first
    request is reported to the user as a failure, and the loading flag of
    the newer request is cleared. *)
Theorem cancellation_is_reported_as_failure src b :
  let w2 := run src b [CallLoad useBatchChanges; CallLoad useBatchChanges] init in
  let w3 :=
    step src b w2 (Settled_getBatchChanges 0 (Rejected Js.AbortError)) in
  let w2' := run src b [CallLoad useChangesets; CallLoad useChangesets] init in
  let w3' :=
    step src b w2' (Settled_getChangesets 0 (Rejected Js.AbortError)) in
  let report what :=
    Eff_showToast
      {| style := Style_Failure;
         toast_title := "Get " ++ what ++ " failed";
         toast_message := Some "AbortError: The user aborted a request.";
         primaryAction :=
           Some {| ta_title := "View details";
                   ta_push :=
                     {| markdown := "**Get " ++ what ++ " failed:** "
                                    ++ "AbortError: The user aborted a request.";
                        navigationTitle := "Unexpected error" |} |} |} in
  Js.isAbort Js.AbortError = true /\
  (effects w3 = (effects w2 ++ [report "batch changes"])%list /\
   isLoading (state (batchChangesHook w3)) = false /\
   cancelRef (batchChangesHook w3) = Some 1 /\
   awaiting (batchChangesHook w3) = [1]) /\
  (effects w3' = (effects w2' ++ [report "changesets"])%list /\
   isLoading (state (changesetsHook w3')) = false /\
   cancelRef (changesetsHook w3') = Some 1 /\
   awaiting (changesetsHook w3') = [1]).
Proof. repeat split. Qed.

(** What C2 gets right: every failure clears the loading flag and raises a
    failure report carrying the error's string form and a "View details"
    action.  The code applies it to cancellations as well. *)
Lemma failure_is_reported src b w a e :
  a ∈ awaiting (batchChangesHook w) ->
  let w' := step src b w (Settled_getBatchChanges a (Rejected e)) in
  isLoading (state (batchChangesHook w')) = false /\
  effects w'
  = (effects w
     ++ [Eff_showToast
           {| style := Style_Failure;
              toast_title := "Get batch changes failed";
              toast_message := Some (Js.String_ e);
              primaryAction :=
                Some {| ta_title := "View details";
                        ta_push :=
                          {| markdown := ("**Get batch changes failed:** "
                                          ++ Js.String_ e)%string;
                             navigationTitle := "Unexpected error" |} |} |}])%list.
Proof.
  intros Hin w'. subst w'. rewrite step_Settled_getBatchChanges.
  cbn [batchChangesHook effects]. by rewrite settle_rejected_applies.
Qed.

(** ** Publishing a changeset *)

Section HandlerFacts.
Variable src : Sourcegraph.
Variable batchChange : gql.BatchChange.
Implicit Types (w : World) (ev : Event) (h : Hook).








End HandlerFacts.

(** Every changeset item of a [BatchChangePeek] view is handed the [load]
    of that view's own hook as its refresh function. *)
Lemma BatchChangePeek_children b src (state : ChangesetsState) e :
  e ∈ mjoin (children <$> sections (BatchChangePeek b src state)) ->
  exists c, c ∈ items state /\ e = El_ChangesetItem src b c useChangesets.
Proof.
  cbn. rewrite app_nil_r, elem_of_app, !list_elem_of_fmap.
  intros [(c & -> & Hc)|(c & -> & Hc)];
    apply list_elem_of_filter in Hc as [_ Hc]; eauto.
Qed.

(** When the publish call is rejected the handler stops there: no toast,
    no timer, no refresh; the rejection goes unhandled. *)
Lemma publish_rejected_stops_handler src b w t toastTitle refresh e :
  tasks w !! t = Some (AfterPublish toastTitle refresh) ->
  step src b w (Settled_publishChangeset t (Some e))
  = set_task t Finished [Eff_unhandledRejection e] w.
Proof. intros Ht. cbn. by rewrite Ht. Qed.



(** * Further properties of the code *)

(** ** Status projection, continued *)

(** X1. The status icon of a batch change is the green circle for OPEN, the
    red check mark for CLOSED and the untinted document for DRAFT; any
    other state falls back to an untinted circle.  The icon is tinted
    exactly in states OPEN and CLOSED.  The leading icon is the list glyph
    in every state. *)
Theorem batch_change_status_icon `{DateTime} b src refresh :
  renders (BatchChange b src refresh) (fun item =>
    let st := gql.bc_state b in
    (st = "OPEN" ->
       accessoryIcon item
       = {| source := Icon_Circle; tintColor := Some Color_Green |}) /\
    (st = "CLOSED" ->
       accessoryIcon item
       = {| source := Icon_Checkmark; tintColor := Some Color_Red |}) /\
    (st = "DRAFT" ->
       accessoryIcon item = {| source := Icon_Document; tintColor := None |}) /\
    (st <> "OPEN" -> st <> "CLOSED" -> st <> "DRAFT" ->
       accessoryIcon item = {| source := Icon_Circle; tintColor := None |}) /\
    (tintColor (accessoryIcon item) = None <-> st <> "OPEN" /\ st <> "CLOSED") /\
    icon item = Some {| source := Icon_List; tintColor := Some ColorDefault |}).
Proof.
  apply BatchChange_renders; intros updated.
  unfold BatchChange_item, BatchChange_icon; cbn [accessoryIcon icon].
  repeat split;
    intros; repeat case_bool_decide; cbn in *;
    first [done | congruence | intuition congruence].
Qed.

Lemma batch_change_status_icon_witness :
  renders (BatchChange (H := sample_dates) sample_batchChange sourcegraph_com
             useBatchChanges)
    (fun item =>
       accessoryIcon item
       = {| source := Icon_Circle; tintColor := Some Color_Green |}).
Proof.
  intros out.
  destruct (batch_change_status_icon (H := sample_dates) sample_batchChange
              sourcegraph_com useBatchChanges out)
    as (item & out' & E & Hopen & _).
  exists item, out'. split; [exact E|exact (Hopen eq_refl)].
Defined.

(** X2. Outside state OPEN the subtitle of a changeset is its lowercased
    state, preceded by ["#{externalID} "] when an external identifier is
    present.  The icon is the purple check mark for MERGED, the red crossed
    circle for CLOSED, the red exclamation mark for FAILED, the untinted
    document for UNPUBLISHED and the untinted clock for PROCESSING and
    RETRYING; a state none of the cases names gets an untinted circle. *)
Theorem changeset_status_table `{DateTime} src b c refresh :
  gql.cs_state c <> "OPEN" ->
  renders (ChangesetItem src b c refresh) (fun item =>
    let st := gql.cs_state c in
    subtitle item
      = (if Js.truthy (gql.externalID c)
         then "#" ++ default "" (gql.externalID c) ++ " " else "")
        ++ Js.toLowerCase st /\
    (st = "MERGED" ->
       accessoryIcon item
       = {| source := Icon_Checkmark; tintColor := Some Color_Purple |}) /\
    (st = "CLOSED" ->
       accessoryIcon item
       = {| source := Icon_XmarkCircle; tintColor := Some Color_Red |}) /\
    (st = "FAILED" ->
       accessoryIcon item
       = {| source := Icon_ExclamationMark; tintColor := Some Color_Red |}) /\
    (st = "UNPUBLISHED" ->
       accessoryIcon item = {| source := Icon_Document; tintColor := None |}) /\
    (st = "PROCESSING" \/ st = "RETRYING" ->
       accessoryIcon item = {| source := Icon_Clock; tintColor := None |}) /\
    (st <> "MERGED" -> st <> "CLOSED" -> st <> "FAILED" ->
     st <> "UNPUBLISHED" -> st <> "PROCESSING" -> st <> "RETRYING" ->
       accessoryIcon item = {| source := Icon_Circle; tintColor := None |})).
Proof.
  intros Hopen. apply ChangesetItem_renders; intros updated.
  unfold ChangesetItem_item, ChangesetItem_switch.
  rewrite (bool_decide_eq_false_2 _ Hopen).
  destruct c as [id st rs eid eurl upd repo]; cbn [gql.cs_state] in *.
  repeat split; intros;
    repeat (case_bool_decide; cbn [orb]); cbn;
    first [done | congruence | intuition congruence].
Qed.

Lemma changeset_status_table_witness :
  renders (ChangesetItem (H := sample_dates) sourcegraph_com sample_batchChange
             (sample_changeset "MERGED" None (Some "7")) useChangesets)
    (fun item =>
       subtitle item = "#7 merged" /\
       accessoryIcon item
       = {| source := Icon_Checkmark; tintColor := Some Color_Purple |}).
Proof.
  intros out.
  destruct (changeset_status_table (H := sample_dates) sourcegraph_com
              sample_batchChange (sample_changeset "MERGED" None (Some "7"))
              useChangesets ltac:(discriminate) out)
    as (item & out' & E & Hsub & Hmerged & _).
  exists item, out'. split; [exact E|]. split; [exact Hsub|exact (Hmerged eq_refl)].
Defined.

(** X3. The review state is looked at only in state OPEN: in any other
    state, replacing it changes nothing of the item but the second search
    keyword. *)
Theorem review_state_ignored_unless_open `{DateTime} src b c refresh rs :
  gql.cs_state c <> "OPEN" ->
  renders (ChangesetItem src b c refresh) (fun item =>
    renders (ChangesetItem src b (with_reviewState c rs) refresh) (fun item' =>
      title item' = title item /\
      subtitle item' = subtitle item /\
      accessoryTitle item' = accessoryTitle item /\
      accessoryIcon item' = accessoryIcon item /\
      actions item' = actions item /\
      keywords item' = [gql.cs_state c; Js.or_else rs ""])).
Proof.
  intros Hopen out.
  destruct (ChangesetItem_returns src b c refresh out) as [out1 E1].
  eexists _, out1. split; [exact E1|]. intros out'.
  destruct (ChangesetItem_returns src b (with_reviewState c rs) refresh out')
    as [out2 E2].
  eexists _, out2. split; [exact E2|].
  unfold ChangesetItem_item, ChangesetItem_switch, ChangesetItem_url.
  cbn [with_reviewState gql.cs_state gql.cs_id gql.externalID gql.externalURL
       gql.cs_updatedAt gql.repository gql.reviewState].
  rewrite (bool_decide_eq_false_2 _ Hopen).
  repeat (case_bool_decide; cbn [orb]); repeat split.
Qed.

Lemma review_state_ignored_unless_open_witness :
  renders (ChangesetItem (H := sample_dates) sourcegraph_com sample_batchChange
             (sample_changeset "CLOSED" None None) useChangesets)
    (fun item =>
       renders (ChangesetItem (H := sample_dates) sourcegraph_com
                  sample_batchChange
                  (sample_changeset "CLOSED" (Some "APPROVED") None)
                  useChangesets)
         (fun item' =>
            subtitle item' = subtitle item /\
            accessoryIcon item' = accessoryIcon item)).
Proof.
  intros out.
  destruct (review_state_ignored_unless_open (H := sample_dates)
              sourcegraph_com sample_batchChange
              (sample_changeset "CLOSED" None None) useChangesets
              (Some "APPROVED") ltac:(discriminate) out)
    as (item & out1 & E & Hrest).
  exists item, out1. split; [exact E|]. intros out'.
  destruct (Hrest out') as (item' & out2 & E' & _ & Hsub & _ & Hicon & _).
  exists item', out2. split; [exact E'|]. split; [exact Hsub|exact Hicon].
Defined.

(** X4. Rendering a changeset never throws, whatever the date library does.
    The accessory shows the relative time when the library yields a
    non-empty one and is absent otherwise; the title is the repository
    name. *)
Theorem changeset_item_relative_time `{DateTime} src b c refresh :
  renders (ChangesetItem src b c refresh) (fun item =>
    accessoryTitle item
      = match fromISO_toRelative (gql.cs_updatedAt c) with
        | Js.Returns (Some (String ch rest)) => Some (String ch rest)
        | Js.Returns (Some EmptyString) | Js.Returns None | Js.Throws _ => None
        end /\
    title item = gql.repo_name (gql.repository c)).
Proof.
  intros out. destruct (ChangesetItem_returns src b c refresh out) as [out' E].
  eexists _, out'. split; [exact E|].
  unfold ChangesetItem_item.
  destruct (ChangesetItem_switch src b c refresh) as [[ic sec] sub].
  cbn [accessoryTitle title]. split; [|reflexivity].
  destruct (fromISO_toRelative (gql.cs_updatedAt c)) as [[[|ch rest]|]|e];
    reflexivity.
Qed.

(** X5. An item writes to the console exactly when the date library throws:
    one warning that names the kind and id of the entity and the error.
    Otherwise, an invalid date included, the console is left as it was. *)
Theorem invalid_date_warning `{DateTime} src b c refresh out :
  snd (BatchChange b src refresh out)
  = match fromISO_toRelative (gql.bc_updatedAt b) with
    | Js.Returns _ => out
    | Js.Throws e =>
        (out ++ [("batch change " ++ gql.bc_id b ++ ": invalid date: "
                  ++ Js.String_ e)%string])%list
    end /\
  snd (ChangesetItem src b c refresh out)
  = match fromISO_toRelative (gql.cs_updatedAt c) with
    | Js.Returns _ => out
    | Js.Throws e =>
        (out ++ [("changeset " ++ gql.cs_id c ++ ": invalid date: "
                  ++ Js.String_ e)%string])%list
    end.
Proof.
  unfold BatchChange, ChangesetItem, relativeUpdate, mbind, M_bind, Js.bind,
    Js.try_catch, Js.lift, Js.console_warn.
  split.
  - by destruct (fromISO_toRelative (gql.bc_updatedAt b)).
  - by destruct (fromISO_toRelative (gql.cs_updatedAt c)).
Qed.

(** ** The changeset view *)

(** X6. [BatchChangePeek] splits the fetched changesets in two sections:
    those in state UNPUBLISHED go to the second, all others to the first.
    Each section keeps the fetched order, and together they hold every
    fetched changeset exactly once. *)
Theorem peek_partitions_changesets b src (state : ChangesetsState) :
  exists published unpublished,
    children <$> sections (BatchChangePeek b src state)
    = [ (fun c => El_ChangesetItem src b c useChangesets) <$> published;
        (fun c => El_ChangesetItem src b c useChangesets) <$> unpublished ] /\
    Forall (fun c => gql.cs_state c <> "UNPUBLISHED") published /\
    Forall (fun c => gql.cs_state c = "UNPUBLISHED") unpublished /\
    published `sublist_of` items state /\
    unpublished `sublist_of` items state /\
    (published ++ unpublished)%list ≡ₚ items state.
Proof.
  exists (filter (fun c => gql.cs_state c <> "UNPUBLISHED") (items state)),
         (filter (fun c => gql.cs_state c = "UNPUBLISHED") (items state)).
  split; [reflexivity|].
  split; [apply Forall_forall; intros c Hc;
          by apply list_elem_of_filter in Hc as [? _]|].
  split; [apply Forall_forall; intros c Hc;
          by apply list_elem_of_filter in Hc as [? _]|].
  split; [apply sublist_filter|]. split; [apply sublist_filter|].
  rewrite (comm (++)%list).
  apply (filter_app_complement (fun c => gql.cs_state c = "UNPUBLISHED")).
Qed.

(** X7. The subtitle of the published section comes from the batch
    change's statistics, not from the fetched list: it reads "0 changesets"
    when no fetched changeset is published; otherwise it is the
    comma-separated list of "{count} {label}" for exactly those of the
    open, closed, merged and failed counts that are not zero, in this
    order: all four when none is zero, the empty string when all are.  The
    unpublished section counts the fetched unpublished changesets. *)
Theorem peek_section_subtitles b src (state : ChangesetsState) :
  let stats := gql.changesetsStats b in
  let unpublished :=
    filter (fun c => gql.cs_state c = "UNPUBLISHED") (items state) in
  let counts :=
    [ (gql.open stats, "open"); (gql.closed stats, "closed");
      (gql.merged stats, "merged"); (gql.failed stats, "failed") ] in
  exists s,
    sec_subtitle <$> sections (BatchChangePeek b src state)
    = [s; pretty (List.length unpublished) ++ " changesets"] /\
    (Forall (fun c => gql.cs_state c = "UNPUBLISHED") (items state) ->
       s = "0 changesets") /\
    (Exists (fun c => gql.cs_state c <> "UNPUBLISHED") (items state) ->
       s = join_comma
             (map (fun p => pretty (fst p) ++ " " ++ snd p)
                  (List.filter (fun p => negb (fst p =? 0)%Z) counts))) /\
    (Exists (fun c => gql.cs_state c <> "UNPUBLISHED") (items state) ->
     gql.open stats = 0%Z -> gql.closed stats = 0%Z ->
     gql.merged stats = 0%Z -> gql.failed stats = 0%Z ->
       s = "") /\
    (Exists (fun c => gql.cs_state c <> "UNPUBLISHED") (items state) ->
     gql.open stats <> 0%Z -> gql.closed stats = 0%Z ->
     gql.merged stats <> 0%Z -> gql.failed stats = 0%Z ->
       s = pretty (gql.open stats) ++ " open, "
           ++ pretty (gql.merged stats) ++ " merged") /\
    (Exists (fun c => gql.cs_state c <> "UNPUBLISHED") (items state) ->
     gql.open stats <> 0%Z -> gql.closed stats <> 0%Z ->
     gql.merged stats <> 0%Z -> gql.failed stats <> 0%Z ->
       s = pretty (gql.open stats) ++ " open, "
           ++ pretty (gql.closed stats) ++ " closed, "
           ++ pretty (gql.merged stats) ++ " merged, "
           ++ pretty (gql.failed stats) ++ " failed").
Proof.
  intros stats unpublished counts. eexists. split; [reflexivity|].
  assert (forall n, n = 0%Z -> Js.truthyZ n = false) as Hz.
  { intros n ->. reflexivity. }
  assert (forall n, n <> 0%Z -> Js.truthyZ n = true) as Hnz.
  { intros n Hn. unfold Js.truthyZ. by destruct (Z.eqb_spec n 0). }
  assert (Exists (fun c => gql.cs_state c <> "UNPUBLISHED") (items state) ->
          (0 <? List.length
                  (filter (fun c => gql.cs_state c <> "UNPUBLISHED")
                          (items state)))%nat = true) as Hpub.
  { intros (c & Hin & Hc)%Exists_exists. apply Nat.ltb_lt.
    assert (c ∈ filter (fun c => gql.cs_state c <> "UNPUBLISHED") (items state))
      as Hc' by (by apply list_elem_of_filter).
    destruct Hc'; cbn; lia. }
  split; [|split; [|split; [|split]]].
  - intros Hall.
    assert (filter (fun c => gql.cs_state c <> "UNPUBLISHED") (items state) = [])
      as ->; [|reflexivity].
    destruct (filter (fun c => gql.cs_state c <> "UNPUBLISHED") (items state))
      as [|c l] eqn:E; [reflexivity|].
    assert (c ∈ filter (fun c => gql.cs_state c <> "UNPUBLISHED") (items state))
      as [Hc Hin]%list_elem_of_filter by (rewrite E; left).
    rewrite Forall_forall in Hall. by specialize (Hall c Hin).
  - intros Hex. cbn [sec_subtitle]. rewrite (Hpub Hex).
    unfold counts, stat_label, Js.truthyZ. fold stats. cbn [List.filter fst snd].
    destruct (gql.open stats =? 0)%Z, (gql.closed stats =? 0)%Z,
             (gql.merged stats =? 0)%Z, (gql.failed stats =? 0)%Z;
      reflexivity.
  - intros Hex Ho Hc Hm Hf. cbn [sec_subtitle]. rewrite (Hpub Hex).
    unfold stat_label. fold stats. by rewrite !Hz.
  - intros Hex Ho Hc Hm Hf. cbn [sec_subtitle]. rewrite (Hpub Hex).
    unfold stat_label. fold stats.
    rewrite (Hnz _ Ho), (Hz _ Hc), (Hnz _ Hm), (Hz _ Hf). cbn.
    by rewrite append_assoc.
  - intros Hex Ho Hc Hm Hf. cbn [sec_subtitle]. rewrite (Hpub Hex).
    unfold stat_label. fold stats.
    rewrite (Hnz _ Ho), (Hnz _ Hc), (Hnz _ Hm), (Hnz _ Hf). cbn.
    by rewrite !append_assoc.
Qed.

Lemma peek_section_subtitles_witness :
  let state : ChangesetsState :=
    {| searchText := "";
       items := [ sample_changeset "OPEN" None None;
                  sample_changeset "UNPUBLISHED" None None ];
       isLoading := false |} in
  sec_subtitle <$> sections (BatchChangePeek sample_batchChange sourcegraph_com state)
  = ["3 open, 2 closed, 5 merged"; "1 changesets"].
Proof.
  intros state.
  destruct (peek_section_subtitles sample_batchChange sourcegraph_com state)
    as (s & E & _ & Hsome & _).
  rewrite E, Hsome; [reflexivity|]. left. discriminate.
Defined.

(** X8. What an item's actions refresh is fixed by the view that shows it.
    A batch change shown by [ViewBatchChanges] has one custom action, and
    it reloads the batch-change list.  Every custom action of a changeset
    shown by [BatchChangePeek] (refresh, publish, retry) reloads that
    view's changeset list, never the batch-change list, and the refresh
    action is always among them. *)
Theorem item_handlers_refresh_own_list `{DateTime} instanceName src :
  (forall (state : BatchChangesState) e,
     e ∈ mjoin (children <$> sections (ViewBatchChanges instanceName src state)) ->
     renders (render e) (fun item =>
       omap handler_of (actions item) = [AwaitRefresh useBatchChanges])) /\
  (forall b (state : ChangesetsState) e,
     e ∈ mjoin (children <$> sections (BatchChangePeek b src state)) ->
     renders (render e) (fun item =>
       Forall (fun h => refresh_target h = useChangesets)
              (omap handler_of (actions item)) /\
       AwaitRefresh useChangesets ∈ omap handler_of (actions item))).
Proof.
  split.
  - intros state e He. cbn in He. rewrite app_nil_r in He.
    apply list_elem_of_fmap in He as (b & -> & _).
    by apply BatchChange_renders.
  - intros b state e He.
    apply BatchChangePeek_children in He as (c & _ & ->).
    apply ChangesetItem_renders; intros updated.
    unfold ChangesetItem_item, ChangesetItem_switch.
    repeat (case_bool_decide; cbn [orb]); cbn;
      (split; [by repeat constructor
              |solve [repeat first [apply list_elem_of_here
                                   |apply list_elem_of_further]]]).
Qed.

Lemma item_handlers_refresh_own_list_witness :
  let state : ChangesetsState :=
    {| searchText := "";
       items := [sample_changeset "FAILED" None None];
       isLoading := false |} in
  renders (render (H := sample_dates)
             (El_ChangesetItem sourcegraph_com sample_batchChange
                (sample_changeset "FAILED" None None) useChangesets))
    (fun item =>
       refresh_target <$> omap handler_of (actions item)
       = [useChangesets; useChangesets]).
Proof.
  intros state out.
  destruct (proj2 (item_handlers_refresh_own_list (H := sample_dates)
                     (fun _ => "") sourcegraph_com)
              sample_batchChange state
              (El_ChangesetItem sourcegraph_com sample_batchChange
                 (sample_changeset "FAILED" None None) useChangesets)
              ltac:(by left) out)
    as (item & out' & E & _).
  exists item, out'. split; [exact E|].
  cbn in E. injection E as <- _. reflexivity.
Defined.

(** ** The fetch hooks, continued *)

Section SteadyFacts.
Context {T : Type}.
Implicit Types (f : Fetcher T) (cs : list bool).

Lemma fetcher_steady_evolves cs cs' f :
  evolves cs cs' -> fetcher_wf cs f ->
  fetcher_steady cs f -> fetcher_steady cs' f.
Proof.
  intros [_ Hmono] [_ Ha] (Hs & Hblank & Hfly & Hlive).
  repeat split; [done..|].
  intros a Hin Hlook. apply Hlive; [done|]. apply Hmono; [by apply Ha|done].
Qed.

Lemma load_call_steady request cs f :
  fetcher_wf cs f -> fetcher_steady cs f ->
  fetcher_steady (load_call request cs f).1.1 (load_call request cs f).1.2.
Proof.
  intros [Hc Ha] (Hs & Hblank & Hfly & Hlive). cbn.
  repeat split; cbn; [done| |].
  - intros a [= <-] _. left.
  - intros a Hin Hlook.
    apply elem_of_cons in Hin as [->|Hin]; [done|].
    exfalso. pose proof (Ha a Hin) as Hlt.
    rewrite lookup_app_l in Hlook by (by rewrite abort_current_length).
    unfold abort_current in Hlook.
    destruct (cancelRef f) as [c|] eqn:Ec.
    + destruct (decide (c = a)) as [->|Hne].
      * rewrite list_lookup_insert_eq in Hlook by done. discriminate.
      * rewrite list_lookup_insert_ne in Hlook by done.
        specialize (Hlive a Hin Hlook). congruence.
    + specialize (Hlive a Hin Hlook). congruence.
Qed.

Lemma settle_steady failed cs a o f :
  fetcher_steady cs f -> fetcher_steady cs (settle failed a o f).1.
Proof.
  intros (Hs & Hblank & Hfly & Hlive). unfold settle.
  case_bool_decide as Hin; [|done].
  destruct o as [nodes|e]; cbn; (repeat split; cbn; [done..|]);
    intros b [_ Hb]%list_elem_of_filter; by apply Hlive.
Qed.

End SteadyFacts.

Section RunFacts.
Variable src : Sourcegraph.
Variable batchChange : gql.BatchChange.
Implicit Types (w : World) (ev : Event) (h : Hook).

Lemma load_steady h w : wf w -> steady w -> steady (load src batchChange h w).
Proof.
  intros [Hb Hc] [Sb Sc]. destruct h; split.
  - by apply (load_call_steady (request_of src batchChange useBatchChanges)
                (controllers w)).
  - eapply fetcher_steady_evolves;
      [apply (load_evolves src batchChange useBatchChanges)|done..].
  - eapply fetcher_steady_evolves;
      [apply (load_evolves src batchChange useChangesets)|done..].
  - by apply (load_call_steady (request_of src batchChange useChangesets)
                (controllers w)).
Qed.

Lemma step_steady w ev : wf w -> steady w -> steady (step src batchChange w ev).
Proof.
  intros Hwf Hst. destruct ev as [h|a o|a o|h|t e|t].
  - by apply load_steady.
  - rewrite step_Settled_getBatchChanges. destruct Hst as [Sb Sc].
    split; [by apply settle_steady|done].
  - rewrite step_Settled_getChangesets. destruct Hst as [Sb Sc].
    split; [done|by apply settle_steady].
  - destruct h as [h|? ? ? ? ?]; [by apply load_steady|].
    destruct Hwf as [Hb Hc], Hst as [Sb Sc].
    split; (eapply fetcher_steady_evolves; [apply evolves_alloc|done..]).
  - cbn. destruct (tasks w !! t) as [[| |]|]; try done. by destruct e.
  - cbn. destruct (tasks w !! t) as [[| |]|]; try done.
    by apply (load_steady _ (set_task t Finished [] w)).
Qed.

Lemma run_wf_steady evs w :
  wf w -> steady w ->
  wf (run src batchChange evs w) /\ steady (run src batchChange evs w).
Proof.
  revert w. induction evs as [|ev evs IH]; intros w Hwf Hst; [done|].
  cbn. apply IH; [by apply step_wf|by apply step_steady].
Qed.

Lemma init_wf_steady : wf init /\ steady init.
Proof.
  split; split; repeat split; cbn; try done;
    intros ? Ha; first [discriminate | by apply elem_of_nil in Ha].
Qed.

Lemma run_init_steady evs :
  wf (run src batchChange evs init) /\ steady (run src batchChange evs init).
Proof. destruct init_wf_steady. by apply run_wf_steady. Qed.

Lemma step_evolves w ev :
  evolves (controllers w) (controllers (step src batchChange w ev)).
Proof.
  destruct ev as [h|a o|a o|h|t e|t].
  - apply load_evolves.
  - rewrite step_Settled_getBatchChanges. apply evolves_refl.
  - rewrite step_Settled_getChangesets. apply evolves_refl.
  - destruct h as [h|? ? ? ? ?]; [apply load_evolves|apply evolves_alloc].
  - cbn. destruct (tasks w !! t) as [[| |]|]; try apply evolves_refl.
    destruct e; apply evolves_refl.
  - cbn. destruct (tasks w !! t) as [[| |]|]; try apply evolves_refl.
    apply (load_evolves _ _ _ (set_task t Finished [] w)).
Qed.

Lemma run_evolves evs w :
  evolves (controllers w) (controllers (run src batchChange evs w)).
Proof.
  revert w. induction evs as [|ev evs IH]; intros w; [apply evolves_refl|].
  eapply evolves_trans; [apply step_evolves|apply IH].
Qed.

Lemma step_untouched w ev :
  (touches useBatchChanges ev = false ->
   batchChangesHook (step src batchChange w ev) = batchChangesHook w) /\
  (touches useChangesets ev = false ->
   changesetsHook (step src batchChange w ev) = changesetsHook w).
Proof.
  destruct ev as [[|]|a o|a o|[[|]|? ? ? ? ?]|t e|t];
    split; intros Ht; try discriminate Ht; try reflexivity.
  - by rewrite step_Settled_getBatchChanges.
  - by rewrite step_Settled_getChangesets.
  - cbn. destruct (tasks w !! t) as [[| |]|]; try done. by destruct e.
  - cbn. destruct (tasks w !! t) as [[| |]|]; try done. by destruct e.
Qed.

Lemma run_untouched evs w :
  (Forall (fun ev => touches useBatchChanges ev = false) evs ->
   batchChangesHook (run src batchChange evs w) = batchChangesHook w) /\
  (Forall (fun ev => touches useChangesets ev = false) evs ->
   changesetsHook (run src batchChange evs w) = changesetsHook w).
Proof.
  revert w. induction evs as [|ev evs IH]; intros w; [done|].
  change (run src batchChange (ev :: evs) w)
    with (run src batchChange evs (step src batchChange w ev)).
  split; intros [Hev Hall]%Forall_cons.
  - rewrite (proj1 (IH _) Hall). by apply step_untouched.
  - rewrite (proj2 (IH _) Hall). by apply step_untouched.
Qed.

End RunFacts.

Section SignalFacts.
Variable src : Sourcegraph.
Variable batchChange : gql.BatchChange.
Implicit Types (w : World) (ev : Event) (h : Hook).

Lemma settle_no_signal {T} failed a (o : Outcome T) f :
  omap signal_of (settle failed a o f).2 = [].
Proof. unfold settle. case_bool_decide; [by destruct o|done]. Qed.

Lemma load_signals h w :
  signals (load src batchChange h w)
  = (signals w ++ [List.length (controllers w)])%list /\
  List.length (controllers (load src batchChange h w))
  = S (List.length (controllers w)).
Proof.
  destruct h; unfold signals; cbn;
    rewrite omap_app, length_app, abort_current_length; cbn; (split; [done|lia]).
Qed.

Lemma signals_fresh_push w w' :
  signals w' = (signals w ++ [List.length (controllers w)])%list ->
  List.length (controllers w') = S (List.length (controllers w)) ->
  signals_fresh w -> signals_fresh w'.
Proof.
  intros Hs Hl [Hnd Hlt]. unfold signals_fresh. rewrite Hs, Hl. split.
  - apply NoDup_app. split; [done|]. split; [|apply NoDup_singleton].
    intros a Ha ->%list_elem_of_singleton. specialize (Hlt _ Ha). lia.
  - intros a [Ha| ->%list_elem_of_singleton]%elem_of_app; [|lia].
    specialize (Hlt _ Ha). lia.
Qed.

Lemma signals_fresh_same w w' :
  signals w' = signals w ->
  List.length (controllers w') = List.length (controllers w) ->
  signals_fresh w -> signals_fresh w'.
Proof. intros Hs Hl [Hnd Hlt]. unfold signals_fresh. by rewrite Hs, Hl. Qed.

Lemma step_signals_fresh w ev :
  signals_fresh w -> signals_fresh (step src batchChange w ev).
Proof.
  intros Hf. destruct ev as [h|a o|a o|h|t e|t].
  - destruct (load_signals h w). by apply (signals_fresh_push w).
  - rewrite step_Settled_getBatchChanges.
    apply (signals_fresh_same w); [|reflexivity|done].
    unfold signals; cbn. by rewrite omap_app, settle_no_signal, app_nil_r.
  - rewrite step_Settled_getChangesets.
    apply (signals_fresh_same w); [|reflexivity|done].
    unfold signals; cbn. by rewrite omap_app, settle_no_signal, app_nil_r.
  - destruct h as [h|? ? ? ? ?].
    + destruct (load_signals h w). by apply (signals_fresh_push w).
    + apply (signals_fresh_push w); [| |done].
      * unfold signals; cbn. by rewrite omap_app.
      * cbn. rewrite length_app; cbn. lia.
  - cbn. destruct (tasks w !! t) as [[| |]|]; try done.
    destruct e; (apply (signals_fresh_same w); [|reflexivity|done]);
      unfold signals; cbn; by rewrite omap_app, app_nil_r.
  - cbn. destruct (tasks w !! t) as [[|refresh|]|]; try done.
    destruct (load_signals refresh (set_task t Finished [] w)) as [Hs Hl].
    apply (signals_fresh_push w); [| |done].
    + rewrite Hs. unfold signals; cbn. by rewrite app_nil_r.
    + by rewrite Hl.
Qed.

Lemma run_signals_fresh evs w :
  signals_fresh w -> signals_fresh (run src batchChange evs w).
Proof.
  revert w. induction evs as [|ev evs IH]; intros w Hf; [done|].
  cbn. apply IH. by apply step_signals_fresh.
Qed.

End SignalFacts.

(** ** Refreshing a list *)

(** X9. Refreshing a list blanks it and shows the loading state, starts
    exactly one request, on the signal of a new controller that is not
    aborted, aborts the controller of the previous request, and leaves the
    other list as it was. *)
Theorem refresh_restarts_load src b w h :
  wf w ->
  let w' := step src b w (Trigger (AwaitRefresh h)) in
  let a := List.length (controllers w) in
  effects w' = (effects w ++ [request_of src b h a])%list /\
  controllers w' !! a = Some false /\
  match h with
  | useBatchChanges =>
      cancelRef (batchChangesHook w') = Some a /\
      a ∈ awaiting (batchChangesHook w') /\
      state (batchChangesHook w')
      = {| searchText := searchText (state (batchChangesHook w));
           items := []; isLoading := true |} /\
      (forall p, cancelRef (batchChangesHook w) = Some p ->
                 controllers w' !! p = Some true) /\
      changesetsHook w' = changesetsHook w
  | useChangesets =>
      cancelRef (changesetsHook w') = Some a /\
      a ∈ awaiting (changesetsHook w') /\
      state (changesetsHook w')
      = {| searchText := searchText (state (changesetsHook w));
           items := []; isLoading := true |} /\
      (forall p, cancelRef (changesetsHook w) = Some p ->
                 controllers w' !! p = Some true) /\
      batchChangesHook w' = batchChangesHook w
  end.
Proof.
  intros [[Hb _] [Hc _]] w' a. subst w' a.
  destruct h; cbn; rewrite abort_current_length;
    (split; [done|]);
    (split; [apply list_lookup_middle; by rewrite abort_current_length|]);
    (split; [done|]); (split; [left|]); (split; [done|]);
    (split; [|done]); intros p Hp; unfold abort_current; rewrite Hp;
    (rewrite lookup_app_l by (rewrite length_insert; auto));
    apply list_lookup_insert_eq; auto.
Qed.

Lemma refresh_restarts_load_witness :
  let w := step sourcegraph_com sample_batchChange init (CallLoad useChangesets) in
  let w' :=
    step sourcegraph_com sample_batchChange w (Trigger (AwaitRefresh useChangesets)) in
  controllers w' = [true; false] /\
  cancelRef (changesetsHook w') = Some 1.
Proof.
  intros w w'.
  assert (wf w) as Hwf.
  { apply step_wf. apply init_wf_steady. }
  destruct (refresh_restarts_load sourcegraph_com sample_batchChange w
              useChangesets Hwf) as (_ & _ & Hcur & _).
  split; [reflexivity|exact Hcur].
Defined.

(** X10. A load whose request succeeds replaces the list: once the
    response arrives the items are exactly the returned nodes (none when
    the response carries no collection), whatever was shown before the
    load, the list is no longer loading, the request is no longer in
    flight and nothing is reported.  Events of the other list in between
    make no difference. *)
Theorem load_then_response_replaces_items src b w evs :
  let a := List.length (controllers w) in
  (Forall (fun ev => touches useBatchChanges ev = false) evs ->
   forall nodes,
     let w1 := run src b evs (step src b w (CallLoad useBatchChanges)) in
     let w2 := step src b w1 (Settled_getBatchChanges a (Resolved nodes)) in
     state (batchChangesHook w2)
     = {| searchText := searchText (state (batchChangesHook w));
          items := default [] nodes; isLoading := false |} /\
     (a ∉ awaiting (batchChangesHook w2)) /\
     effects w2 = effects w1) /\
  (Forall (fun ev => touches useChangesets ev = false) evs ->
   forall nodes,
     let w1 := run src b evs (step src b w (CallLoad useChangesets)) in
     let w2 := step src b w1 (Settled_getChangesets a (Resolved nodes)) in
     state (changesetsHook w2)
     = {| searchText := searchText (state (changesetsHook w));
          items := default [] nodes; isLoading := false |} /\
     (a ∉ awaiting (changesetsHook w2)) /\
     effects w2 = effects w1).
Proof.
  intros a. split; intros Hevs nodes w1 w2; subst w2.
  - rewrite step_Settled_getBatchChanges. cbn [batchChangesHook effects].
    assert (batchChangesHook w1
            = batchChangesHook (step src b w (CallLoad useBatchChanges))) as ->
      by (by apply run_untouched).
    unfold settle. cbn [step load useBatchChanges_load load_call batchChangesHook
                        awaiting cancelRef state].
    rewrite abort_current_length. fold a.
    rewrite bool_decide_eq_true_2 by left. cbn.
    split; [done|]. split; [|by rewrite app_nil_r].
    rewrite decide_False by (intros Hne; by apply Hne).
    intros [Hne _]%list_elem_of_filter. by apply Hne.
  - rewrite step_Settled_getChangesets. cbn [changesetsHook effects].
    assert (changesetsHook w1
            = changesetsHook (step src b w (CallLoad useChangesets))) as ->
      by (by apply run_untouched).
    unfold settle. cbn [step load useChangesets_load load_call changesetsHook
                        awaiting cancelRef state].
    rewrite abort_current_length. fold a.
    rewrite bool_decide_eq_true_2 by left. cbn.
    split; [done|]. split; [|by rewrite app_nil_r].
    rewrite decide_False by (intros Hne; by apply Hne).
    intros [Hne _]%list_elem_of_filter. by apply Hne.
Qed.

Lemma load_then_response_replaces_items_witness :
  let stale : World :=
    {| controllers := [];
       batchChangesHook :=
         {| state := {| searchText := "";
                        items := [sample_batchChange; sample_batchChange];
                        isLoading := false |};
            cancelRef := None; awaiting := [] |};
       changesetsHook := mounted; tasks := []; effects := [] |} in
  let w2 :=
    run sourcegraph_com sample_batchChange
      [ CallLoad useBatchChanges; CallLoad useChangesets;
        Settled_getBatchChanges 0 (Resolved None) ] stale in
  state (batchChangesHook w2)
  = {| searchText := ""; items := []; isLoading := false |}.
Proof.
  intros stale w2.
  exact (proj1 (proj1 (load_then_response_replaces_items sourcegraph_com
                         sample_batchChange stale [CallLoad useChangesets])
                  ltac:(by repeat constructor) None)).
Defined.

(** ** What the hooks keep in every run *)

(** X11. A list that is loading is blank: in every run from mount,
    whatever the port answers, [isLoading = true] implies that no items are
    held, so items of an earlier load are never shown under the loading
    indicator. *)
Theorem loading_list_is_blank src b evs :
  let w := run src b evs init in
  (isLoading (state (batchChangesHook w)) = true ->
   items (state (batchChangesHook w)) = []) /\
  (isLoading (state (changesetsHook w)) = true ->
   items (state (changesetsHook w)) = []).
Proof.
  intros w. destruct (run_init_steady src b evs) as [_ [Sb Sc]].
  split; [apply Sb|apply Sc].
Qed.

Lemma loading_list_is_blank_witness :
  items (state (batchChangesHook
                  (run sourcegraph_com sample_batchChange
                     [ CallLoad useBatchChanges;
                       Settled_getBatchChanges 0
                         (Resolved (Some [sample_batchChange]));
                       CallLoad useBatchChanges ] init)))
  = [].
Proof.
  apply (proj1 (loading_list_is_blank sourcegraph_com sample_batchChange
                  [ CallLoad useBatchChanges;
                    Settled_getBatchChanges 0
                      (Resolved (Some [sample_batchChange]));
                    CallLoad useBatchChanges ])).
  reflexivity.
Defined.

(** X12. The loading indicator never outlives the current request: in
    every run from mount, once a load has been started, [isLoading = true]
    implies that the request of the latest load is still in flight. *)
Theorem loading_means_request_in_flight src b evs :
  let w := run src b evs init in
  (forall a, cancelRef (batchChangesHook w) = Some a ->
             isLoading (state (batchChangesHook w)) = true ->
             a ∈ awaiting (batchChangesHook w)) /\
  (forall a, cancelRef (changesetsHook w) = Some a ->
             isLoading (state (changesetsHook w)) = true ->
             a ∈ awaiting (changesetsHook w)).
Proof.
  intros w. destruct (run_init_steady src b evs) as [_ [Sb Sc]].
  split; [apply Sb|apply Sc].
Qed.

Lemma loading_means_request_in_flight_witness :
  1 ∈ awaiting (changesetsHook
                  (run sourcegraph_com sample_batchChange
                     [ CallLoad useChangesets; CallLoad useChangesets;
                       Settled_getChangesets 5 (Resolved None) ] init)).
Proof.
  apply (proj2 (loading_means_request_in_flight sourcegraph_com
                  sample_batchChange
                  [ CallLoad useChangesets; CallLoad useChangesets;
                    Settled_getChangesets 5 (Resolved None) ]) 1);
    reflexivity.
Defined.

(** X13. A hook has at most one live request: in every run from mount, a
    request that is in flight and whose signal has not been aborted is the
    one [cancelRef] holds, so any two such requests are the same. *)
Theorem one_live_request_per_hook src b evs :
  let w := run src b evs init in
  let live {T} (f : Fetcher T) a :=
    a ∈ awaiting f /\ controllers w !! a = Some false in
  (forall a, live (batchChangesHook w) a ->
             cancelRef (batchChangesHook w) = Some a) /\
  (forall a, live (changesetsHook w) a ->
             cancelRef (changesetsHook w) = Some a) /\
  (forall a a', live (batchChangesHook w) a -> live (batchChangesHook w) a' ->
                a = a') /\
  (forall a a', live (changesetsHook w) a -> live (changesetsHook w) a' ->
                a = a').
Proof.
  intros w live. destruct (run_init_steady src b evs) as [_ [Sb Sc]].
  destruct Sb as (_ & _ & _ & Lb), Sc as (_ & _ & _ & Lc).
  assert (forall a, live _ (batchChangesHook w) a ->
                    cancelRef (batchChangesHook w) = Some a) as Hb
    by (intros a [? ?]; by apply Lb).
  assert (forall a, live _ (changesetsHook w) a ->
                    cancelRef (changesetsHook w) = Some a) as Hc
    by (intros a [? ?]; by apply Lc).
  repeat split; [done|done| |].
  - intros a a' Ha%Hb Ha'%Hb. congruence.
  - intros a a' Ha%Hc Ha'%Hc. congruence.
Qed.

Lemma one_live_request_per_hook_witness :
  cancelRef (batchChangesHook
               (run sourcegraph_com sample_batchChange
                  [ CallLoad useBatchChanges; CallLoad useChangesets;
                    CallLoad useBatchChanges ] init))
  = Some 2.
Proof.
  apply (proj1 (one_live_request_per_hook sourcegraph_com sample_batchChange
                  [ CallLoad useBatchChanges; CallLoad useChangesets;
                    CallLoad useBatchChanges ]) 2).
  split; [left|reflexivity].
Defined.

(** X14. The search text of either list is never written: in every run
    from mount it is the empty string it was initialised with. *)
Theorem searchText_never_written src b evs :
  let w := run src b evs init in
  searchText (state (batchChangesHook w)) = "" /\
  searchText (state (changesetsHook w)) = "".
Proof.
  intros w. destruct (run_init_steady src b evs) as [_ [Sb Sc]].
  split; [apply Sb|apply Sc].
Qed.

(** X15. Cancellation is final and controllers are never dropped: a signal
    that is aborted stays aborted through any further events, and an
    allocated controller stays allocated. *)
Theorem aborted_stays_aborted src b evs w a :
  (controllers w !! a = Some true ->
   controllers (run src b evs w) !! a = Some true) /\
  (a < List.length (controllers w) ->
   a < List.length (controllers (run src b evs w))).
Proof.
  destruct (run_evolves src b evs w) as [Hlen Hmono].
  split; [|lia]. intros Hab.
  pose proof (lookup_lt_Some _ _ _ Hab) as Hlt.
  destruct (lookup_lt_is_Some_2 (controllers (run src b evs w)) a
              ltac:(lia)) as [[|] Hx]; [done|].
  specialize (Hmono a Hlt Hx). congruence.
Qed.

Lemma aborted_stays_aborted_witness :
  let w :=
    run sourcegraph_com sample_batchChange
      [CallLoad useBatchChanges; CallLoad useBatchChanges] init in
  controllers
    (run sourcegraph_com sample_batchChange
       [ Settled_getBatchChanges 0 (Resolved None); CallLoad useChangesets;
         Trigger (AwaitRefresh useBatchChanges) ] w) !! 0
  = Some true.
Proof.
  intros w.
  apply (proj1 (aborted_stays_aborted sourcegraph_com sample_batchChange
                  [ Settled_getBatchChanges 0 (Resolved None);
                    CallLoad useChangesets;
                    Trigger (AwaitRefresh useBatchChanges) ] w 0)).
  reflexivity.
Defined.

(** X16. The two lists are isolated: events that run no code of a hook
    (loads and responses of the other list, the start and the settlement
    of a publish call) leave that hook's state, current controller and
    requests in flight exactly as they were. *)
Theorem lists_are_isolated src b evs w :
  (Forall (fun ev => touches useBatchChanges ev = false) evs ->
   batchChangesHook (run src b evs w) = batchChangesHook w) /\
  (Forall (fun ev => touches useChangesets ev = false) evs ->
   changesetsHook (run src b evs w) = changesetsHook w).
Proof. apply run_untouched. Qed.

Lemma lists_are_isolated_witness :
  let w :=
    step sourcegraph_com sample_batchChange init (CallLoad useBatchChanges) in
  batchChangesHook
    (run sourcegraph_com sample_batchChange
       [ CallLoad useChangesets;
         Settled_getChangesets 1 (Rejected Js.AbortError);
         Trigger (AwaitRefresh useChangesets);
         Trigger (PublishThenRefresh sourcegraph_com "b" "c" "t" useChangesets);
         Settled_publishChangeset 0 None ] w)
  = batchChangesHook w.
Proof.
  intros w.
  apply (proj1 (lists_are_isolated sourcegraph_com sample_batchChange
                  [ CallLoad useChangesets;
                    Settled_getChangesets 1 (Rejected Js.AbortError);
                    Trigger (AwaitRefresh useChangesets);
                    Trigger (PublishThenRefresh sourcegraph_com "b" "c" "t"
                               useChangesets);
                    Settled_publishChangeset 0 None ] w)).
  by repeat constructor.
Defined.

(** X17. No two port calls share a cancellation signal: in every run from
    mount, the signals handed to [getBatchChanges], [getChangesets] and
    [publishChangeset] are pairwise distinct, and each is the signal of an
    allocated controller. *)
Theorem signals_never_shared src b evs :
  let w := run src b evs init in
  NoDup (signals w) /\
  forall a, a ∈ signals w -> is_Some (controllers w !! a).
Proof.
  intros w.
  assert (signals_fresh init) as Hinit.
  { split; [apply NoDup_nil_2|]. intros a Ha. by apply elem_of_nil in Ha. }
  destruct (run_signals_fresh src b evs init Hinit) as [Hnd Hlt].
  split; [done|]. intros a Ha. apply lookup_lt_is_Some_2. by apply Hlt.
Qed.

(** ** Failures *)

(** X18. Every failed request of a load in flight clears the loading flag,
    keeps the items as they are, and raises exactly one failure toast: its
    title names the list, its message is the error's string form, and its
    "View details" action pushes a detail view titled "Unexpected error"
    with the same text. *)
Theorem failed_load_is_reported src b w a e :
  let report what :=
    Eff_showToast
      {| style := Style_Failure;
         toast_title := "Get " ++ what ++ " failed";
         toast_message := Some (Js.String_ e);
         primaryAction :=
           Some {| ta_title := "View details";
                   ta_push :=
                     {| markdown := "**Get " ++ what ++ " failed:** "
                                    ++ Js.String_ e;
                        navigationTitle := "Unexpected error" |} |} |} in
  (a ∈ awaiting (batchChangesHook w) ->
   let w' := step src b w (Settled_getBatchChanges a (Rejected e)) in
   effects w' = (effects w ++ [report "batch changes"])%list /\
   state (batchChangesHook w')
   = {| searchText := searchText (state (batchChangesHook w));
        items := items (state (batchChangesHook w));
        isLoading := false |}) /\
  (a ∈ awaiting (changesetsHook w) ->
   let w' := step src b w (Settled_getChangesets a (Rejected e)) in
   effects w' = (effects w ++ [report "changesets"])%list /\
   state (changesetsHook w')
   = {| searchText := searchText (state (changesetsHook w));
        items := items (state (changesetsHook w));
        isLoading := false |}).
Proof.
  intros report. split; intros Hin w'; subst w'.
  - rewrite step_Settled_getBatchChanges. cbn [batchChangesHook effects].
    by rewrite settle_rejected_applies.
  - rewrite step_Settled_getChangesets. cbn [changesetsHook effects].
    by rewrite settle_rejected_applies.
Qed.

Lemma failed_load_is_reported_witness :
  let w := step sourcegraph_com sample_batchChange init (CallLoad useChangesets) in
  let e := {| Js.name := "Error"; Js.message := "401 Unauthorized" |} in
  List.length
    (effects (step sourcegraph_com sample_batchChange w
                (Settled_getChangesets 0 (Rejected e))))
  = 2.
Proof.
  intros w e.
  destruct (proj2 (failed_load_is_reported sourcegraph_com sample_batchChange
                     w 0 e) ltac:(left)) as [Heff _].
  rewrite Heff. reflexivity.
Defined.

(** X19. A publish call that is rejected ends its handler: the rejection is
    left unhandled, no success toast is shown, no timer is set and neither
    list is reloaded, then or when a timer fires later. *)
Theorem rejected_publish_never_refreshes src b w src' bid cid toastTitle refresh e :
  let t := List.length (tasks w) in
  let a := List.length (controllers w) in
  let w2 :=
    run src b
      [ Trigger (PublishThenRefresh src' bid cid toastTitle refresh);
        Settled_publishChangeset t (Some e) ] w in
  effects w2
  = (effects w
     ++ [Eff_publishChangeset a src' bid cid; Eff_unhandledRejection e])%list /\
  batchChangesHook w2 = batchChangesHook w /\
  changesetsHook w2 = changesetsHook w /\
  step src b w2 (TimerFired t) = w2 /\
  step src b w2 (Settled_publishChangeset t None) = w2.
Proof.
  intros t a w2. subst w2. cbn.
  rewrite list_lookup_middle by done. cbn.
  rewrite <- (assoc (++)%list). repeat split.
  - rewrite list_lookup_insert_eq; [done|]. rewrite length_app; cbn. lia.
  - rewrite list_lookup_insert_eq; [done|]. rewrite length_app; cbn. lia.
Qed.

(** ** A load that fails *)

Section FailedLoadFacts.
Variable src : Sourcegraph.
Variable batchChange : gql.BatchChange.
Implicit Types (w : World) (ev : Event) (h : Hook).

Lemma settle_keeps_awaiting {T} failed a' (o : Outcome T) f a :
  a ∈ awaiting f -> a' <> a -> a ∈ awaiting (settle failed a' o f).1.
Proof.
  intros Hin Hne. unfold settle. case_bool_decide; [|done].
  destruct o; cbn; apply list_elem_of_filter; split; congruence.
Qed.

Lemma load_keeps_awaiting h w a :
  (a ∈ awaiting (batchChangesHook w) ->
   a ∈ awaiting (batchChangesHook (load src batchChange h w))) /\
  (a ∈ awaiting (changesetsHook w) ->
   a ∈ awaiting (changesetsHook (load src batchChange h w))).
Proof. destruct h; split; intros Hin; cbn; first [done | by right]. Qed.

(** A suspended [load] stays suspended until its own request settles. *)
Lemma step_keeps_awaiting w ev a :
  (a ∈ awaiting (batchChangesHook w) ->
   settles useBatchChanges a ev = false ->
   a ∈ awaiting (batchChangesHook (step src batchChange w ev))) /\
  (a ∈ awaiting (changesetsHook w) ->
   settles useChangesets a ev = false ->
   a ∈ awaiting (changesetsHook (step src batchChange w ev))).
Proof.
  destruct ev as [h|a' o|a' o|h|t e|t].
  - split; intros Hin _; by apply load_keeps_awaiting.
  - rewrite step_Settled_getBatchChanges. split; intros Hin Hs; [|done].
    cbn in Hs. apply Nat.eqb_neq in Hs. by apply settle_keeps_awaiting.
  - rewrite step_Settled_getChangesets. split; intros Hin Hs; [done|].
    cbn in Hs. apply Nat.eqb_neq in Hs. by apply settle_keeps_awaiting.
  - destruct h as [h|? ? ? ? ?]; [|done].
    split; intros Hin _; by apply load_keeps_awaiting.
  - cbn. destruct (tasks w !! t) as [[| |]|]; try done. by destruct e.
  - cbn. destruct (tasks w !! t) as [[|refresh|]|]; try done.
    split; intros Hin _;
      by apply (load_keeps_awaiting refresh (set_task t Finished [] w)).
Qed.

Lemma run_keeps_awaiting evs w a :
  (a ∈ awaiting (batchChangesHook w) ->
   Forall (fun ev => settles useBatchChanges a ev = false) evs ->
   a ∈ awaiting (batchChangesHook (run src batchChange evs w))) /\
  (a ∈ awaiting (changesetsHook w) ->
   Forall (fun ev => settles useChangesets a ev = false) evs ->
   a ∈ awaiting (changesetsHook (run src batchChange evs w))).
Proof.
  revert w. induction evs as [|ev evs IH]; intros w; [done|].
  change (run src batchChange (ev :: evs) w)
    with (run src batchChange evs (step src batchChange w ev)).
  split; intros Hin [Hev Hall]%Forall_cons.
  - apply IH; [|done]. by apply step_keeps_awaiting.
  - apply IH; [|done]. by apply step_keeps_awaiting.
Qed.

Lemma reachable_run evs w :
  reachable src batchChange w -> cooperative_trace src batchChange w evs ->
  reachable src batchChange (run src batchChange evs w).
Proof.
  revert w. induction evs as [|ev evs IH]; intros w Hr Ht; [done|].
  destruct Ht as [Hev Ht]. apply IH; [|done]. by apply reachable_step.
Qed.

Lemma reachable_steady w : reachable src batchChange w -> steady w.
Proof.
  induction 1 as [|w ev Hr Hst Hcoop]; [apply init_wf_steady|].
  apply step_steady; [|done]. by apply reachable_wf_inv in Hr as [? _].
Qed.

End FailedLoadFacts.

(** C10. A [load] clears the items as it starts, whatever was displayed,
    and when its request then fails with an error other than a
    cancellation the list is left empty and not loading: the failure path
    does not restore the earlier items.  Other events may happen between
    the start and the failure, as long as they do not settle this request.
    (The port is assumed to honour cancellation, so that such a failure can
    only belong to the current request.) *)
Theorem failed_load_blanks_list src b w evs e :
  reachable src b w -> Js.isAbort e = false ->
  let a := List.length (controllers w) in
  (let w0 := step src b w (CallLoad useBatchChanges) in
   let w1 := run src b evs w0 in
   let w2 := step src b w1 (Settled_getBatchChanges a (Rejected e)) in
   cooperative_trace src b w0 evs ->
   Forall (fun ev => settles useBatchChanges a ev = false) evs ->
   cooperative w1 (Settled_getBatchChanges a (Rejected e)) = true ->
   state (batchChangesHook w0)
   = {| searchText := searchText (state (batchChangesHook w));
        items := []; isLoading := true |} /\
   state (batchChangesHook w2)
   = {| searchText := searchText (state (batchChangesHook w));
        items := []; isLoading := false |}) /\
  (let w0 := step src b w (CallLoad useChangesets) in
   let w1 := run src b evs w0 in
   let w2 := step src b w1 (Settled_getChangesets a (Rejected e)) in
   cooperative_trace src b w0 evs ->
   Forall (fun ev => settles useChangesets a ev = false) evs ->
   cooperative w1 (Settled_getChangesets a (Rejected e)) = true ->
   state (changesetsHook w0)
   = {| searchText := searchText (state (changesetsHook w));
        items := []; isLoading := true |} /\
   state (changesetsHook w2)
   = {| searchText := searchText (state (changesetsHook w));
        items := []; isLoading := false |}).
Proof.
  intros Hreach Hna a.
  pose proof (reachable_steady src b w Hreach) as [(Tb & _) (Tc & _)].
  split; intros w0 w1 w2 Htrace Hquiet Hcoop; (split; [reflexivity|]).
  - assert (reachable src b w1) as Hr1.
    { apply reachable_run; [|done]. by apply reachable_step. }
    assert (a ∈ awaiting (batchChangesHook w1)) as Hin.
    { apply run_keeps_awaiting; [|done]. unfold w0, a; cbn.
      rewrite abort_current_length. left. }
    pose proof (reachable_steady src b w1 Hr1) as [(Tb1 & _) _].
    unfold w2.
    rewrite (proj1 (live_failure_leaves_blank src b w1 a e Hr1 Hna) Hin Hcoop).
    by rewrite Tb, Tb1.
  - assert (reachable src b w1) as Hr1.
    { apply reachable_run; [|done]. by apply reachable_step. }
    assert (a ∈ awaiting (changesetsHook w1)) as Hin.
    { apply run_keeps_awaiting; [|done]. unfold w0, a; cbn.
      rewrite abort_current_length. left. }
    pose proof (reachable_steady src b w1 Hr1) as [_ (Tc1 & _)].
    unfold w2.
    rewrite (proj2 (live_failure_leaves_blank src b w1 a e Hr1 Hna) Hin Hcoop).
    by rewrite Tc, Tc1.
Qed.

Lemma failed_load_blanks_list_witness :
  let shown :=
    run sourcegraph_com sample_batchChange
      [ CallLoad useBatchChanges;
        Settled_getBatchChanges 0
          (Resolved (Some [sample_batchChange; sample_batchChange])) ] init in
  let e := {| Js.name := "TypeError"; Js.message := "fetch failed" |} in
  let failed :=
    run sourcegraph_com sample_batchChange
      [ CallLoad useBatchChanges; CallLoad useChangesets;
        Settled_getBatchChanges 1 (Rejected e) ] shown in
  state (batchChangesHook shown)
  = {| searchText := "";
       items := [sample_batchChange; sample_batchChange];
       isLoading := false |} /\
  state (batchChangesHook failed)
  = {| searchText := ""; items := []; isLoading := false |}.
Proof.
  intros shown e failed. split; [reflexivity|].
  assert (reachable sourcegraph_com sample_batchChange shown) as Hshown.
  { apply reachable_run; [apply reachable_init|]. by repeat split. }
  exact (proj2 (proj1 (failed_load_blanks_list sourcegraph_com
                         sample_batchChange shown [CallLoad useChangesets] e
                         Hshown eq_refl)
                  ltac:(by repeat split) ltac:(by repeat constructor)
                  eq_refl)).
Defined.

(** How a [load] comes to supersede another through the user interface: a
    retry is submitted from a displayed changeset, the user refreshes the
    list, and the delayed refresh of the retry fires while that refresh is
    still loading.  The aborted request of the refresh then fails with an
    abort error, which is reported and clears the loading flag although
    the delayed refresh's request is still in flight. *)
Lemma delayed_refresh_supersedes_refresh :
  let c := sample_changeset "FAILED" None None in
  let shown :=
    run sourcegraph_com sample_batchChange
      [ CallLoad useChangesets;
        Settled_getChangesets 0 (Resolved (Some [c])) ] init in
  let retry :=
    PublishThenRefresh sourcegraph_com (gql.bc_id sample_batchChange)
      (gql.cs_id c) "Changeset has been submitted for retry!" useChangesets in
  let evs :=
    [ Trigger retry; Settled_publishChangeset 0 None;
      Trigger (AwaitRefresh useChangesets); TimerFired 0;
      Settled_getChangesets 2 (Rejected Js.AbortError) ] in
  let w := run sourcegraph_com sample_batchChange evs shown in
  cooperative_trace sourcegraph_com sample_batchChange shown evs /\
  controllers w = [true; false; true; false] /\
  cancelRef (changesetsHook w) = Some 3 /\
  awaiting (changesetsHook w) = [3] /\
  isLoading (state (changesetsHook w)) = false /\
  last (effects w)
  = Some (Eff_showToast
            (failureToast "Get changesets failed" Js.AbortError)).
Proof. repeat split. Qed.
